(** * The test-management edge function of mock-aptitude

    A shallow embedding of [supabase/functions/test-management/index.ts]
    (the [start-test], [submit-answer] and [submit-test] actions) and of
    the admission prefix of the client's [loadActiveTest], followed by the
    properties of the attempt lifecycle and of the scoring arithmetic. *)

From Stdlib Require Import ZArith QArith Ascii.
From stdpp Require Import gmap strings list fin_maps sorting pretty.

Local Open Scope string_scope.

(** ** Rows of the four tables

    Field names are those of the TypeScript row types and of the SQL
    schema.  Timestamps are instants in milliseconds since the epoch (what
    [new Date(s).getTime()] gives for the stored text); identifiers are the
    uuid strings. *)

Module Test.
Record t := mk {
  title : string;
  start_time : Z;
  end_time : Z;
  duration_minutes : Z;
  total_questions : Z;
  is_active : bool
}.
End Test.

Module Question.
Record t := mk {
  test_id : string;
  question_text : string;
  correct_answer : string
}.
End Question.

Module TestAttempt.
Record t := mk {
  id : string;
  started_at : Z;
  submitted_at : option Z;
  score : Q;
  is_completed : bool
}.
End TestAttempt.

Module StudentAnswer.
Record t := mk {
  selected_answer : option string;
  is_correct : bool
}.
End StudentAnswer.

(** Modelled from the spec: the persistent store behind [supabaseClient]
    ([../_shared/supabase-client.ts] and the database are not part of the
    sources).  The spec gives it read-one, read-many, insert, update and
    upsert-by-unique-key, with the uniqueness constraints of the schema:
    [tests] and [questions] are keyed by their primary key [id],
    [test_attempts] by the pair [(student_id, test_id)] and
    [student_answers] by the pair [(attempt_id, question_id)], so that a
    key holds at most one row by construction.  A nullable column is an
    [option].  Each handler that writes receives the store's verdict on the
    write as an input ([write_ok]: transient failures and whatever is not
    written out here); for [student_answers] the constraints of the schema
    are written out, see [answer_accepted]. *)
Record Store := mkStore {
  tests : gmap string Test.t;
  questions : gmap string Question.t;
  test_attempts : gmap (string * string) TestAttempt.t;
  student_answers : gmap (string * string) StudentAnswer.t
}.

(** ** Responses of the handler *)

Record ScoreResult := mkResult {
  score : Q;
  attempted : Z;
  correct : Z;
  incorrect : Z;
  unattempted : Z
}.

Inductive Response :=
| Error (status : Z) (error : string)
| Started (attemptId : string) (startedAt : Z)
| Success
| Scored (r : ScoreResult).

(** ** [case 'start-test'] *)

(** [.from('tests').select('*').eq('id', testId).eq('is_active', true).single()] *)
Definition select_active_test (st : Store) (testId : string) : option Test.t :=
  match tests st !! testId with
  | Some test => if Test.is_active test then Some test else None
  | None => None
  end.

(** The condition of the second denial, [now < startTime || now > endTime]. *)
Definition outside_window (test : Test.t) (now : Z) : bool :=
  (now <? Test.start_time test)%Z || (now >? Test.end_time test)%Z.

(** The row the insert creates: [started_at] is the handler's second clock
    reading, the other columns take their schema defaults. *)
Definition new_attempt (newId : string) (stamp : Z) : TestAttempt.t :=
  TestAttempt.mk newId stamp None 0%Q false.

(** [now] is the clock reading of the window check, [stamp] the one taken
    for the insert, [newId] the uuid the store generates for a new row and
    [write_ok] the store's verdict on the insert. *)
Definition start_test (st : Store) (studentId testId : string)
    (now stamp : Z) (newId : string) (write_ok : bool) : Response * Store :=
  match select_active_test st testId with
  | None => (Error 400 "Test not found or not active", st)
  | Some test =>
    if outside_window test now then
      (Error 400 "Test is not available at this time", st)
    else
      match test_attempts st !! (studentId, testId) with
      | Some existingAttempt =>
        if TestAttempt.is_completed existingAttempt then
          (Error 400 "You have already completed this test", st)
        else
          (Started (TestAttempt.id existingAttempt)
                   (TestAttempt.started_at existingAttempt), st)
      | None =>
        if write_ok then
          let attempt := new_attempt newId stamp in
          (Started (TestAttempt.id attempt) (TestAttempt.started_at attempt),
           mkStore (tests st) (questions st)
                   (<[(studentId, testId) := attempt]> (test_attempts st))
                   (student_answers st))
        else (Error 500 "Failed to start test", st)
      end
  end.

(** ** [case 'submit-answer'] *)

(** What the request body holds under [selectedAnswer]: nothing (the
    destructuring then gives [undefined]), [null], a string, or a value of
    another JSON type (number, boolean, array, object). *)
Inductive SelectedAnswer :=
| Missing
| JsonNull
| Text (s : string)
| NotText.

(** [question?.correct_answer === selectedAnswer].  The left side is the
    question's string, or [undefined] when no question row was found; strict
    equality holds between two equal strings and between [undefined] and
    [undefined], and between nothing else that can occur here. *)
Definition isCorrect (question : option Question.t) (selectedAnswer : SelectedAnswer) : bool :=
  match question, selectedAnswer with
  | Some q, Text s => String.eqb (Question.correct_answer q) s
  | None, Missing => true
  | _, _ => false
  end.

(** The value sent for the column [selected_answer]: a string as it is;
    [undefined] is left out of the serialized row and [null] is sent as
    such, both giving NULL. *)
Definition selected_column (selectedAnswer : SelectedAnswer) : option string :=
  match selectedAnswer with
  | Text s => Some s
  | _ => None
  end.

(** [CHECK (selected_answer IN ('A', 'B', 'C', 'D'))] of the schema: NULL
    passes a check; the text of a number, boolean, array or object is none
    of the four letters. *)
Definition selected_answer_check (selectedAnswer : SelectedAnswer) : bool :=
  match selectedAnswer with
  | Text s => String.eqb s "A" || String.eqb s "B" || String.eqb s "C" || String.eqb s "D"
  | Missing | JsonNull => true
  | NotText => false
  end.

(** [attempt_id uuid REFERENCES test_attempts(id)] *)
Definition attempt_exists (st : Store) (attemptId : string) : bool :=
  existsb (λ kv, String.eqb (TestAttempt.id (snd kv)) attemptId)
          (map_to_list (test_attempts st)).

(** The constraints the schema puts on a new row of [student_answers]: the
    check on [selected_answer], the two foreign keys, and
    [UNIQUE(attempt_id, question_id)].  The [upsert] is called without
    [onConflict] and the row carries no [id], so it resolves conflicts on the
    primary key only, where a fresh [id] never conflicts: it is an insert,
    and a second row for the same attempt and question violates the
    uniqueness constraint. *)
Definition answer_accepted (st : Store) (attemptId questionId : string)
    (selectedAnswer : SelectedAnswer) : bool :=
  selected_answer_check selectedAnswer
  && bool_decide (is_Some (questions st !! questionId))
  && attempt_exists st attemptId
  && bool_decide (student_answers st !! (attemptId, questionId) = None).

(** [write_ok] is the store's verdict on the write apart from these
    constraints. *)
Definition submit_answer (st : Store) (attemptId questionId : string)
    (selectedAnswer : SelectedAnswer) (write_ok : bool) : Response * Store :=
  let question := questions st !! questionId in
  let row := StudentAnswer.mk (selected_column selectedAnswer)
                              (isCorrect question selectedAnswer) in
  if write_ok && answer_accepted st attemptId questionId selectedAnswer then
    (Success,
     mkStore (tests st) (questions st) (test_attempts st)
             (<[(attemptId, questionId) := row]> (student_answers st)))
  else (Error 500 "Failed to save answer", st).

(** ** [case 'submit-test'] *)

(** [.from('student_answers').select('*').eq('attempt_id', attemptId)] *)
Definition select_answers (st : Store) (attemptId : string) : list StudentAnswer.t :=
  snd <$> filter (λ kv, fst (fst kv) = attemptId) (map_to_list (student_answers st)).

(** The three accumulators of the [forEach] loop.  [score] only ever moves
    by [1] and by [0.25], which binary floating point adds without rounding
    (for fewer than 2^50 answers), so the JS number is the rational. *)
Record Tally := mkTally { t_score : Q; t_correct : Z; t_incorrect : Z }.

Definition tally_step (acc : Tally) (answer : StudentAnswer.t) : Tally :=
  if StudentAnswer.is_correct answer then
    mkTally (t_score acc + 1) (t_correct acc + 1) (t_incorrect acc)
  else
    mkTally (t_score acc - (1 # 4)) (t_correct acc) (t_incorrect acc + 1).

Definition tally (answers : list StudentAnswer.t) : Tally :=
  fold_left tally_step answers (mkTally 0 0 0).

Definition score_answers (answers : list StudentAnswer.t) : ScoreResult :=
  let acc := tally answers in
  let attempted := Z.of_nat (length answers) in
  mkResult (t_score acc) attempted (t_correct acc) (t_incorrect acc) (40 - attempted).

(** [.update({submitted_at, score, is_completed: true}).eq('id', attemptId)] *)
Definition finalize_row (attemptId : string) (now : Z) (s : Q)
    (a : TestAttempt.t) : TestAttempt.t :=
  if String.eqb (TestAttempt.id a) attemptId then
    TestAttempt.mk (TestAttempt.id a) (TestAttempt.started_at a) (Some now) s true
  else a.

Definition update_attempt (st : Store) (attemptId : string) (now : Z) (s : Q) : Store :=
  mkStore (tests st) (questions st)
          (finalize_row attemptId now s <$> test_attempts st)
          (student_answers st).

Definition submit_test (st : Store) (attemptId : string) (now : Z)
    (write_ok : bool) : Response * Store :=
  let r := score_answers (select_answers st attemptId) in
  if write_ok then (Scored r, update_attempt st attemptId now (score r))
  else (Error 500 "Failed to submit test", st).

(** ** Two [submit-test] requests in flight

    The handler gives up control at each [await]: once for the select of the
    answers and once for the update of the attempt.  A request is therefore
    a task of two store calls; the tally runs between them, on the task's
    own copy of the answers. *)

Inductive SubmitTask :=
| AwaitSelect (attemptId : string)
| AwaitUpdate (attemptId : string) (r : ScoreResult)
| Replied (resp : Response).

Inductive DbCall :=
| SelectAnswers (attemptId : string)
| UpdateAttempt (attemptId : string) (submitted_at : Z) (score : Q).

Definition submit_step (now : Z) (write_ok : bool) (st : Store) (task : SubmitTask)
    : Store * SubmitTask * list DbCall :=
  match task with
  | AwaitSelect attemptId =>
    (st, AwaitUpdate attemptId (score_answers (select_answers st attemptId)),
     [SelectAnswers attemptId])
  | AwaitUpdate attemptId r =>
    if write_ok then
      (update_attempt st attemptId now (score r), Replied (Scored r),
       [UpdateAttempt attemptId now (score r)])
    else
      (st, Replied (Error 500 "Failed to submit test"),
       [UpdateAttempt attemptId now (score r)])
  | Replied resp => (st, Replied resp, [])
  end.

(** One turn of the scheduler: which of the two requests runs its next
    store call, what the clock shows and whether the store accepts a write. *)
Record Turn := mkTurn { second : bool; clock : Z; accepted : bool }.

Record Race := mkRace {
  db : Store;
  task1 : SubmitTask;
  task2 : SubmitTask;
  calls : list DbCall
}.

Definition race_step (c : Race) (t : Turn) : Race :=
  if second t then
    let '(st, task, log) := submit_step (clock t) (accepted t) (db c) (task2 c) in
    mkRace st (task1 c) task (calls c ++ log)
  else
    let '(st, task, log) := submit_step (clock t) (accepted t) (db c) (task1 c) in
    mkRace st task (task2 c) (calls c ++ log).

Definition run_race (c : Race) (schedule : list Turn) : Race :=
  fold_left race_step schedule c.

Definition start_race (st : Store) (attemptId : string) : Race :=
  mkRace st (AwaitSelect attemptId) (AwaitSelect attemptId) [].

Definition is_select (c : DbCall) : bool :=
  match c with SelectAnswers _ => true | UpdateAttempt _ _ _ => false end.

Definition is_update (c : DbCall) : bool :=
  match c with SelectAnswers _ => false | UpdateAttempt _ _ _ => true end.

Definition count_calls (p : DbCall → bool) (log : list DbCall) : nat :=
  length (List.filter p log).

(** How many of its two store calls a task has made. *)
Definition selects_done (task : SubmitTask) : nat :=
  match task with AwaitSelect _ => 0 | _ => 1 end.

Definition updates_done (task : SubmitTask) : nat :=
  match task with Replied _ => 1 | _ => 0 end.

(** ** The admission prefix of the client's [loadActiveTest]

    Only the part up to [setCurrentTest(tests)] is embedded: the query for
    the single active test and the two window checks, each of which sets its
    own error message.  [toLocaleString] is the host's date formatting. *)

Inductive LoadOutcome :=
| Denied (error : string)
| Loaded (test : Test.t).

(** [.from('tests').select('*').eq('is_active', true).single()]: a row only
    when exactly one test is active. *)
Definition select_single_active_test (st : Store) : option Test.t :=
  match filter (λ kv, Test.is_active (snd kv) = true) (map_to_list (tests st)) with
  | [kv] => Some (snd kv)
  | _ => None
  end.

Section LoadActiveTest.
Variable toLocaleString : Z → string.

Definition loadActiveTest_admission (st : Store) (now : Z) : LoadOutcome :=
  match select_single_active_test st with
  | None => Denied "No active test available at the moment."
  | Some test =>
    if (now <? Test.start_time test)%Z then
      Denied ("Test will start at " ++ toLocaleString (Test.start_time test))
    else if (now >? Test.end_time test)%Z then
      Denied "Test time has expired."
    else Loaded test
  end.
End LoadActiveTest.

(** ** Counting the recorded answers *)

(** The numbers of recorded answers of either kind, counted directly. *)
Definition count_correct (answers : list StudentAnswer.t) : Z :=
  Z.of_nat (length (filter (λ a, StudentAnswer.is_correct a = true) answers)).

Definition count_incorrect (answers : list StudentAnswer.t) : Z :=
  Z.of_nat (length (filter (λ a, StudentAnswer.is_correct a = false) answers)).

(** ** Stores to run the handlers on *)

Definition hour : Z := 3600000.

Definition sample_test : Test.t :=
  Test.mk "Sample Test" (10 * hour) (12 * hour) 60 40 true.

Definition sample_questions : gmap string Question.t :=
  list_to_map [("q1", Question.mk "t1" "2 + 2" "B");
               ("q2", Question.mk "t1" "capital" "C");
               ("q3", Question.mk "t1" "planet" "B")].

(** An active test inside its window, nobody has started yet. *)
Definition sample_store : Store :=
  mkStore {[ "t1" := sample_test ]} sample_questions ∅ ∅.

(** A test configured with five questions; student [s1] is in the middle of
    attempt [a1] and has recorded two answers. *)
Definition running_store : Store :=
  mkStore {[ "t1" := Test.mk "Short Test" (10 * hour) (12 * hour) 60 5 true ]}
          sample_questions
          {[ ("s1", "t1") := TestAttempt.mk "a1" (11 * hour) None 0 false ]}
          (list_to_map [(("a1", "q1"), StudentAnswer.mk (Some "B") true);
                        (("a1", "q2"), StudentAnswer.mk (Some "A") false)]).

(** The same store after attempt [a1] was submitted seven milliseconds
    past eleven. *)
Definition graded_store : Store :=
  snd (submit_test running_store "a1" (11 * hour + 7) true).

(** Attempt [a9] with ten correct and five incorrect answers recorded. *)
Definition fifteen_answers : gmap (string * string) StudentAnswer.t :=
  list_to_map
    (((λ q, (("a9", q), StudentAnswer.mk (Some "A") true))
        <$> ["q01"; "q02"; "q03"; "q04"; "q05"; "q06"; "q07"; "q08"; "q09"; "q10"])
     ++ ((λ q, (("a9", q), StudentAnswer.mk (Some "D") false))
        <$> ["q11"; "q12"; "q13"; "q14"; "q15"])).

Definition fifteen_store : Store :=
  mkStore {[ "t1" := sample_test ]}
          (list_to_map
             ((λ q, (q, Question.mk "t1" "" "A"))
                <$> ["q01"; "q02"; "q03"; "q04"; "q05"; "q06"; "q07"; "q08"; "q09"; "q10";
                     "q11"; "q12"; "q13"; "q14"; "q15"]))
          {[ ("s9", "t1") := TestAttempt.mk "a9" (11 * hour) None 0 false ]}
          fifteen_answers.

(** A question imported with a lower-case [correct_answer], which the
    check on [questions.correct_answer] admits, and an attempt in progress. *)
Definition lowercase_store : Store :=
  mkStore {[ "t1" := sample_test ]}
          {[ "q1" := Question.mk "t1" "2 + 2" "b" ]}
          {[ ("s1", "t1") := TestAttempt.mk "a1" (11 * hour) None 0 false ]}
          ∅.

(** Two students in the middle of the same test. *)
Definition shared_store : Store :=
  mkStore (tests running_store) (questions running_store)
          (<[ ("s2", "t1") := TestAttempt.mk "a2" (11 * hour + 3) None 0 false ]>
             (test_attempts running_store))
          (student_answers running_store).

(** The store with every attempt marked as not completed. *)
Definition reopened (st : Store) : Store :=
  mkStore (tests st) (questions st)
          ((λ a, TestAttempt.mk (TestAttempt.id a) (TestAttempt.started_at a)
                                (TestAttempt.submitted_at a) (TestAttempt.score a) false)
             <$> test_attempts st)
          (student_answers st).

(** The first request runs to its reply before the second one starts. *)
Definition one_after_the_other : list Turn :=
  [mkTurn false (11 * hour + 1) true; mkTurn false (11 * hour + 2) true;
   mkTurn true (11 * hour + 3) true; mkTurn true (11 * hour + 4) true].

(** Both requests read the answers before either updates the attempt. *)
Definition overlapping : list Turn :=
  [mkTurn false (11 * hour + 1) true; mkTurn true (11 * hour + 2) true;
   mkTurn false (11 * hour + 3) true; mkTurn true (11 * hour + 4) true].

(** ** The spec's names for the denials of [start-test] *)

(** [TestUnavailable] covers the two 400 responses that precede the lookup
    of the attempt. *)
Definition TestUnavailable (r : Response) : Prop :=
  r = Error 400 "Test not found or not active"
  ∨ r = Error 400 "Test is not available at this time".

Definition AlreadyCompleted (r : Response) : Prop :=
  r = Error 400 "You have already completed this test".

(** ** [case 'manage-test'] *)

(** The [updates] object of the request: a value for each column of [tests]
    it mentions. *)
Record TestUpdates := mkUpdates {
  u_title : option string;
  u_start_time : option Z;
  u_end_time : option Z;
  u_duration_minutes : option Z;
  u_total_questions : option Z;
  u_is_active : option bool
}.

Definition apply_updates (updates : TestUpdates) (test : Test.t) : Test.t :=
  Test.mk (default (Test.title test) (u_title updates))
          (default (Test.start_time test) (u_start_time updates))
          (default (Test.end_time test) (u_end_time updates))
          (default (Test.duration_minutes test) (u_duration_minutes updates))
          (default (Test.total_questions test) (u_total_questions updates))
          (default (Test.is_active test) (u_is_active updates)).

(** [.from('tests').update(updates).eq('id', testId)] *)
Definition manage_test (st : Store) (testId : string) (updates : TestUpdates)
    (write_ok : bool) : Response * Store :=
  if write_ok then
    (Success,
     mkStore (alter (apply_updates updates) testId (tests st)) (questions st)
             (test_attempts st) (student_answers st))
  else (Error 500 "Failed to update test", st).

(** ** [case 'get-results'] *)

Module Student.
Record t := mk {
  name : string;
  email : string;
  enrollment_number : string
}.
End Student.

(** A row of the answer: the attempt with its two foreign keys and the
    embedded [students(name, email, enrollment_number)] and [tests(title)]. *)
Record ResultRow := mkRow {
  row_student_id : string;
  row_test_id : string;
  row_attempt : TestAttempt.t;
  row_students : option Student.t;
  row_tests : option string
}.

Inductive ResultsResponse :=
| ResultsError (status : Z) (error : string)
| Results (rows : list ResultRow).

(** [.order('submitted_at', { ascending: false })]: later submissions
    first, rows without [submitted_at] before all others. *)
Definition newer_first (a b : ResultRow) : Prop :=
  match TestAttempt.submitted_at (row_attempt a),
        TestAttempt.submitted_at (row_attempt b) with
  | None, _ => True
  | Some _, None => False
  | Some x, Some y => (y ≤ x)%Z
  end.

#[global] Instance newer_first_dec : RelDecision newer_first.
Proof.
  intros a b. unfold newer_first.
  destruct (TestAttempt.submitted_at (row_attempt a)) as [x|];
    [destruct (TestAttempt.submitted_at (row_attempt b)) as [y|]|]; apply _.
Defined.

Definition result_row (students : gmap string Student.t) (st : Store)
    (kv : string * string * TestAttempt.t) : ResultRow :=
  mkRow (fst (fst kv)) (snd (fst kv)) (snd kv)
        (students !! fst (fst kv))
        (Test.title <$> tests st !! snd (fst kv)).

Definition get_results (students : gmap string Student.t) (st : Store)
    (read_ok : bool) : ResultsResponse :=
  if read_ok then
    Results
      (merge_sort newer_first
         (result_row students st
            <$> filter (λ kv, TestAttempt.is_completed (snd kv) = true)
                       (map_to_list (test_attempts st))))
  else ResultsError 500 "Failed to fetch results".

(** ** The student's page: clock, countdown and summary *)

Fixpoint pad_chars (n : nat) (pad : ascii) (s : string) : string :=
  match n with
  | O => s
  | S n => String pad (pad_chars n pad s)
  end.

(** [s.padStart(targetLength, pad)] for a one-character [pad]. *)
Definition padStart (targetLength : nat) (pad : ascii) (s : string) : string :=
  pad_chars (targetLength - String.length s) pad s.

(** [formatTime]: [Math.floor(seconds / 60)] and [seconds % 60], each
    printed in decimal and padded to two characters. *)
Definition formatTime (seconds : Z) : string :=
  let minutes := (seconds / 60)%Z in
  let remainingSeconds := Z.rem seconds 60 in
  padStart 2 "0" (pretty minutes) ++ ":" ++ padStart 2 "0" (pretty remainingSeconds).

(** The updater the interval passes to [setTimeLeft]; the flag tells
    whether it called [submitTest]. *)
Definition timer_tick (prev : Z) : Z * bool :=
  if (prev <=? 1)%Z then (0%Z, true) else ((prev - 1)%Z, false).

Record Countdown := mkCountdown { timeLeft : Z; submit_calls : nat }.

(** One second of an attempt in progress: the effect keeps an interval only
    while [timeLeft > 0]. *)
Definition one_second (c : Countdown) : Countdown :=
  if (timeLeft c >? 0)%Z then
    let '(next, fired) := timer_tick (timeLeft c) in
    mkCountdown next (submit_calls c + if fired then 1 else 0)
  else c.

Definition after_seconds (n : nat) (c : Countdown) : Countdown :=
  Nat.iter n one_second c.

(** The remaining time [loadActiveTest] sets when it resumes an attempt. *)
Definition remaining_time (now started_at : Z) : Z :=
  let elapsed := ((now - started_at) / 1000)%Z in
  Z.max 0 (3600 - elapsed).

Record TestResult := mkTestResult {
  tr_score : Q;
  tr_totalQuestions : Z;
  tr_attempted : Z;
  tr_correct : Z;
  tr_incorrect : Z;
  tr_unattempted : Z
}.

(** The summary [loadActiveTest] builds for an attempt it finds completed. *)
Definition completed_summary (st : Store) (existingAttempt : TestAttempt.t) : TestResult :=
  let studentAnswers := select_answers st (TestAttempt.id existingAttempt) in
  let attempted := Z.of_nat (length studentAnswers) in
  let correct :=
    Z.of_nat (length (filter (λ a, StudentAnswer.is_correct a = true) studentAnswers)) in
  let incorrect := (attempted - correct)%Z in
  let unattempted := (40 - attempted)%Z in
  mkTestResult (TestAttempt.score existingAttempt) 40 attempted correct incorrect unattempted.

(** ** The results dashboard: grades and statistics *)

Definition percentage (score : Q) : Q := (score / 40 * 100)%Q.

(** The grade column of [exportToCSV]. *)
Definition grade (score : Q) : string :=
  if Qle_bool 80 (percentage score) then "A"
  else if Qle_bool 70 (percentage score) then "B"
  else if Qle_bool 60 (percentage score) then "C"
  else if Qle_bool 50 (percentage score) then "D"
  else "F".

(** The filter of [calculateStats] that counts the passes. *)
Definition passes (score : Q) : bool := Qle_bool 50 (percentage score).

(** ** The import script: inserting the questions in batches *)

Definition batchSize : nat := 10.

(** The [for] loop over [i = 0, 10, 20, ...]: each round inserts
    [rows.slice(i, i + batchSize)] and the script returns at the first
    insert that fails.  [accepts] is the store's verdict on the batch with a
    given number; the result is the batches inserted, and whether the loop
    ran to its end. *)
Fixpoint import_loop {A} (fuel i : nat) (rows : list A) (accepts : nat → bool)
    : list (list A) * bool :=
  match fuel with
  | O => ([], negb (i <? length rows)%nat)
  | S fuel =>
    if (i <? length rows)%nat then
      let batch := take batchSize (drop i rows) in
      if accepts (i / batchSize) then
        let '(inserted, finished) := import_loop fuel (i + batchSize) rows accepts in
        (batch :: inserted, finished)
      else ([], false)
    else ([], true)
  end.

Definition import_batches {A} (rows : list A) (accepts : nat → bool)
    : list (list A) * bool :=
  import_loop (length rows) 0 rows accepts.

(** * Properties *)

(** ** The handlers on the sample stores *)

Example start_sample :
  fst (start_test sample_store "s1" "t1" (11 * hour) (11 * hour + 1) "a1" true)
  = Started "a1" (11 * hour + 1).
Proof. vm_compute. reflexivity. Qed.

Example submit_running :
  fst (submit_test running_store "a1" (11 * hour + 7) true)
  = Scored (mkResult (0 + 1 - (1 # 4)) 2 1 1 38).
Proof. vm_compute. reflexivity. Qed.

Example graded_attempt :
  test_attempts graded_store !! ("s1", "t1")
  = Some (TestAttempt.mk "a1" (11 * hour) (Some (11 * hour + 7)%Z) (0 + 1 - (1 # 4)) true).
Proof. vm_compute. reflexivity. Qed.

(** ** Scoring arithmetic *)

Lemma count_correct_cons a l :
  count_correct (a :: l)
  = ((if StudentAnswer.is_correct a then 1 else 0) + count_correct l)%Z.
Proof.
  unfold count_correct. rewrite filter_cons.
  destruct (StudentAnswer.is_correct a); case_decide; try congruence; simpl length; lia.
Qed.

Lemma count_incorrect_cons a l :
  count_incorrect (a :: l)
  = ((if StudentAnswer.is_correct a then 0 else 1) + count_incorrect l)%Z.
Proof.
  unfold count_incorrect. rewrite filter_cons.
  destruct (StudentAnswer.is_correct a); case_decide; try congruence; simpl length; lia.
Qed.

Lemma counts_length l :
  (count_correct l + count_incorrect l = Z.of_nat (length l))%Z.
Proof.
  induction l as [|a l IH]; [reflexivity|].
  rewrite count_correct_cons, count_incorrect_cons. simpl length.
  destruct (StudentAnswer.is_correct a); lia.
Qed.

(** The loop started from any accumulator adds the two counts to the
    counters and one mark per correct, minus a quarter per incorrect answer
    to the score. *)
Lemma tally_from l : ∀ acc,
  t_correct (fold_left tally_step l acc) = (t_correct acc + count_correct l)%Z
  ∧ t_incorrect (fold_left tally_step l acc) = (t_incorrect acc + count_incorrect l)%Z
  ∧ (t_score (fold_left tally_step l acc)
     == t_score acc + inject_Z (count_correct l) * 1
        + inject_Z (count_incorrect l) * - (1 # 4))%Q.
Proof.
  induction l as [|a l IH]; intros acc.
  - cbn [fold_left]. unfold count_correct, count_incorrect. simpl.
    repeat split; try lia. ring.
  - cbn [fold_left]. destruct (IH (tally_step acc a)) as (Hc & Hi & Hs).
    rewrite Hc, Hi, Hs, count_correct_cons, count_incorrect_cons.
    unfold tally_step. destruct (StudentAnswer.is_correct a); cbn [t_score t_correct t_incorrect].
    + repeat split; try lia. rewrite !inject_Z_plus.
      change (inject_Z 1) with 1%Q. change (inject_Z 0) with 0%Q. ring.
    + repeat split; try lia. rewrite !inject_Z_plus.
      change (inject_Z 1) with 1%Q. change (inject_Z 0) with 0%Q. ring.
Qed.

Lemma tally_counts l :
  t_correct (tally l) = count_correct l
  ∧ t_incorrect (tally l) = count_incorrect l
  ∧ (t_score (tally l)
     == inject_Z (count_correct l) * 1 + inject_Z (count_incorrect l) * - (1 # 4))%Q.
Proof.
  destruct (tally_from l (mkTally 0 0 0)) as (Hc & Hi & Hs).
  unfold tally. rewrite Hc, Hi, Hs. cbn [t_score t_correct t_incorrect].
  repeat split; try lia. ring.
Qed.

(** The response of an accepted [submit-test] and the store it leaves. *)
Lemma accepted_submit_test st attemptId now :
  let r := score_answers (select_answers st attemptId) in
  submit_test st attemptId now true
  = (Scored r, update_attempt st attemptId now (score r))
  ∧ correct r = count_correct (select_answers st attemptId)
  ∧ incorrect r = count_incorrect (select_answers st attemptId)
  ∧ (score r == inject_Z (count_correct (select_answers st attemptId)) * 1
                + inject_Z (count_incorrect (select_answers st attemptId)) * - (1 # 4))%Q.
Proof.
  intros r. subst r.
  destruct (tally_counts (select_answers st attemptId)) as (Hc & Hi & Hs).
  unfold submit_test, score_answers. cbn [score correct incorrect]. auto.
Qed.

(** C3 (amended).  The result of [submit-test] has [attempted = correct +
    incorrect] and [unattempted = 40 - attempted], so that [attempted +
    unattempted = 40] whatever [total_questions] the owning test is
    configured with. *)
Theorem submit_test_counts (st : Store) (attemptId : string) (now : Z) :
  ∃ r, submit_test st attemptId now true
       = (Scored r, update_attempt st attemptId now (score r))
     ∧ attempted r = Z.of_nat (length (select_answers st attemptId))
     ∧ correct r = count_correct (select_answers st attemptId)
     ∧ incorrect r = count_incorrect (select_answers st attemptId)
     ∧ attempted r = (correct r + incorrect r)%Z
     ∧ unattempted r = (40 - attempted r)%Z
     ∧ (attempted r + unattempted r = 40)%Z.
Proof.
  exists (score_answers (select_answers st attemptId)).
  destruct (tally_counts (select_answers st attemptId)) as (Hc & Hi & _).
  pose proof (counts_length (select_answers st attemptId)) as Hlen.
  unfold submit_test, score_answers.
  cbn [score attempted correct incorrect unattempted].
  rewrite Hc, Hi. repeat split; lia.
Qed.

(** C3, as stated, fails: with [total_questions = 5] and two recorded
    answers the handler reports 38 unattempted questions, not 3. *)
Lemma unattempted_from_forty :
  ∃ test r,
    tests running_store !! "t1" = Some test
    ∧ Test.total_questions test = 5%Z
    ∧ fst (submit_test running_store "a1" (11 * hour + 7) true) = Scored r
    ∧ attempted r = 2%Z
    ∧ unattempted r = 38%Z
    ∧ unattempted r ≠ (Test.total_questions test - attempted r)%Z
    ∧ (attempted r + unattempted r)%Z ≠ Test.total_questions test.
Proof.
  eexists _, _. split; [vm_compute; reflexivity|].
  split; [reflexivity|]. split; [vm_compute; reflexivity|].
  cbn [attempted unattempted Test.total_questions]. repeat split; lia.
Qed.

(** C4.  The score [submit-test] computes is one mark for each recorded
    answer with [is_correct = true] and minus a quarter for each with
    [is_correct = false], as an exact rational; questions without an answer
    row do not enter it.  Ten correct and five incorrect answers give 8.75. *)
Theorem submit_test_score (st : Store) (attemptId : string) (now : Z) :
  let c := count_correct (select_answers st attemptId) in
  let i := count_incorrect (select_answers st attemptId) in
  ∃ r, submit_test st attemptId now true
       = (Scored r, update_attempt st attemptId now (score r))
     ∧ correct r = c
     ∧ incorrect r = i
     ∧ (score r == inject_Z c * 1 + inject_Z i * - (1 # 4))%Q
     ∧ (c = 10%Z → i = 5%Z → score r == 8.75)%Q.
Proof.
  intros c i. destruct (accepted_submit_test st attemptId now) as (Hr & Hc & Hi & Hs).
  eexists. split; [exact Hr|]. repeat split; try assumption.
  intros H10 H5. rewrite Hs. fold c i. rewrite H10, H5. reflexivity.
Qed.

Lemma submit_test_score_witness :
  count_correct (select_answers fifteen_store "a9") = 10%Z
  ∧ count_incorrect (select_answers fifteen_store "a9") = 5%Z
  ∧ ∃ r, fst (submit_test fifteen_store "a9" (11 * hour + 30) true) = Scored r
       ∧ (score r == 8.75)%Q.
Proof.
  split; [vm_compute; reflexivity|]. split; [vm_compute; reflexivity|].
  destruct (submit_test_score fifteen_store "a9" (11 * hour + 30))
    as (r & Hr & _ & _ & _ & H875).
  exists r. split; [rewrite Hr; reflexivity|].
  apply H875; vm_compute; reflexivity.
Defined.

(** ** Admission *)

Lemma outside_window_false test now :
  outside_window test now = false
  ↔ (Test.start_time test ≤ now ≤ Test.end_time test)%Z.
Proof.
  unfold outside_window. rewrite Z.gtb_ltb, orb_false_iff, !Z.ltb_ge. tauto.
Qed.

Lemma outside_window_true test now :
  outside_window test now = true
  ↔ (now < Test.start_time test ∨ Test.end_time test < now)%Z.
Proof.
  unfold outside_window. rewrite Z.gtb_ltb, orb_true_iff, !Z.ltb_lt. tauto.
Qed.

Lemma select_active_test_Some st testId test :
  select_active_test st testId = Some test
  ↔ tests st !! testId = Some test ∧ Test.is_active test = true.
Proof.
  unfold select_active_test. destruct (tests st !! testId) as [t|].
  - destruct (Test.is_active t) eqn:Hact; split.
    + intros [= ->]. auto.
    + intros [[= ->] _]. reflexivity.
    + intros [=].
    + intros [[= ->] H]. congruence.
  - split; [intros [=] | intros [[=] _]].
Qed.

(** What [start-test] answers once the test was found active and the clock
    is inside the window: never one of the two availability denials. *)
Lemma start_test_inside_window st studentId testId test now stamp newId write_ok :
  select_active_test st testId = Some test →
  outside_window test now = false →
  ¬ TestUnavailable (fst (start_test st studentId testId now stamp newId write_ok)).
Proof.
  intros Hsel Hwin. unfold start_test. rewrite Hsel, Hwin.
  destruct (test_attempts st !! (studentId, testId)) as [a|].
  - destruct (TestAttempt.is_completed a); intros [H|H]; inversion H.
  - destruct write_ok; intros [H|H]; inversion H.
Qed.

(** C7.  For a stored test, [start-test] does not answer with one of the
    availability denials exactly when the test is active and
    [start_time <= now <= end_time], both ends included.  A test that is
    active from one hour before to one hour after [now] is admitted at [now]
    and denied two hours later. *)
Theorem start_test_admissible (st : Store) (studentId testId : string)
    (test : Test.t) (now stamp : Z) (newId : string) (write_ok : bool) :
  tests st !! testId = Some test →
  (¬ TestUnavailable (fst (start_test st studentId testId now stamp newId write_ok))
   ↔ Test.is_active test = true
     ∧ (Test.start_time test ≤ now ≤ Test.end_time test)%Z)
  ∧ (Test.is_active test = true →
     Test.start_time test = (now - hour)%Z →
     Test.end_time test = (now + hour)%Z →
     ¬ TestUnavailable (fst (start_test st studentId testId now stamp newId write_ok))
     ∧ TestUnavailable
         (fst (start_test st studentId testId (now + 2 * hour) stamp newId write_ok))).
Proof.
  intros Htest.
  assert (Hiff : ∀ n,
    ¬ TestUnavailable (fst (start_test st studentId testId n stamp newId write_ok))
    ↔ Test.is_active test = true
      ∧ (Test.start_time test ≤ n ≤ Test.end_time test)%Z).
  { intros n. split.
    - intros Hav. unfold start_test, select_active_test in Hav. rewrite Htest in Hav.
      destruct (Test.is_active test) eqn:Hact.
      + split; [reflexivity|]. apply outside_window_false.
        destruct (outside_window test n); [|reflexivity].
        exfalso. apply Hav. right. reflexivity.
      + exfalso. apply Hav. left. reflexivity.
    - intros [Hact Hwin]. apply start_test_inside_window with test.
      + apply select_active_test_Some. auto.
      + apply outside_window_false. exact Hwin. }
  split; [apply Hiff|].
  intros Hact Hs He. split.
  - apply Hiff. unfold hour in *. split; [assumption|lia].
  - unfold start_test, select_active_test. rewrite Htest, Hact.
    assert (Hout : outside_window test (now + 2 * hour) = true).
    { apply outside_window_true. unfold hour in *. lia. }
    rewrite Hout. right. reflexivity.
Qed.

Lemma start_test_admissible_witness :
  tests sample_store !! "t1" = Some sample_test
  ∧ ¬ TestUnavailable
      (fst (start_test sample_store "s1" "t1" (11 * hour) (11 * hour) "a1" true))
  ∧ TestUnavailable
      (fst (start_test sample_store "s1" "t1" (11 * hour + 2 * hour) (11 * hour) "a1" true)).
Proof.
  assert (H : tests sample_store !! "t1" = Some sample_test) by (vm_compute; reflexivity).
  split; [exact H|].
  destruct (start_test_admissible sample_store "s1" "t1" sample_test
              (11 * hour) (11 * hour) "a1" true H) as [_ Hex].
  apply Hex; reflexivity.
Defined.

(** ** Starting and resuming an attempt *)

Lemma start_test_existing st studentId testId test existing now stamp newId write_ok :
  select_active_test st testId = Some test →
  outside_window test now = false →
  test_attempts st !! (studentId, testId) = Some existing →
  TestAttempt.is_completed existing = false →
  start_test st studentId testId now stamp newId write_ok
  = (Started (TestAttempt.id existing) (TestAttempt.started_at existing), st).
Proof.
  intros Hsel Hwin Hrow Hopen. unfold start_test.
  rewrite Hsel, Hwin, Hrow, Hopen. reflexivity.
Qed.

(** A successful [start-test] leaves a store in which the pair holds an
    open attempt carrying the identifier and the start instant it answered
    with, whether the attempt was found or has just been inserted. *)
Lemma start_test_started st studentId testId now stamp newId write_ok i sa st1 :
  start_test st studentId testId now stamp newId write_ok = (Started i sa, st1) →
  tests st1 = tests st
  ∧ ∃ a, test_attempts st1 !! (studentId, testId) = Some a
       ∧ TestAttempt.id a = i
       ∧ TestAttempt.started_at a = sa
       ∧ TestAttempt.is_completed a = false.
Proof.
  unfold start_test.
  destruct (select_active_test st testId) as [test|]; [|intros [=]].
  destruct (outside_window test now); [intros [=]|].
  destruct (test_attempts st !! (studentId, testId)) as [a|] eqn:Hrow.
  - destruct (TestAttempt.is_completed a) eqn:Hopen; intros [= <- <- <-].
    split; [reflexivity|]. exists a. auto.
  - destruct write_ok; intros [= <- <- <-].
    split; [reflexivity|]. exists (new_attempt newId stamp).
    cbn [test_attempts]. rewrite lookup_insert_eq. auto.
Qed.

(** A student whose attempt is completed may not start again. *)
Lemma start_test_completed st studentId testId test existing now stamp newId write_ok :
  select_active_test st testId = Some test →
  outside_window test now = false →
  test_attempts st !! (studentId, testId) = Some existing →
  TestAttempt.is_completed existing = true →
  AlreadyCompleted (fst (start_test st studentId testId now stamp newId write_ok))
  ∧ snd (start_test st studentId testId now stamp newId write_ok) = st.
Proof.
  intros Hsel Hwin Hrow Hdone. unfold start_test, AlreadyCompleted.
  rewrite Hsel, Hwin, Hrow, Hdone. split; reflexivity.
Qed.

(** Two calls in a row, the first of which may have created the attempt. *)
Lemma start_test_twice st studentId testId test now stamp newId write_ok
    now' stamp' newId' write_ok' i sa st1 :
  start_test st studentId testId now stamp newId write_ok = (Started i sa, st1) →
  select_active_test st testId = Some test →
  outside_window test now' = false →
  start_test st1 studentId testId now' stamp' newId' write_ok' = (Started i sa, st1).
Proof.
  intros Hfirst Hsel Hwin.
  destruct (start_test_started _ _ _ _ _ _ _ _ _ _ Hfirst)
    as (Htests & a & Hrow & <- & <- & Hopen).
  apply start_test_existing with test; try assumption.
  unfold select_active_test in *. rewrite Htests. exact Hsel.
Qed.

(** C5.  When the test is admissible and the student already has an attempt
    that is not completed, [start-test] answers with that attempt's id and
    its original [started_at] and leaves the store as it was; a second call
    made while the test is still admissible answers the same and again
    changes nothing, so no row is added. *)
Theorem start_test_resumes (st : Store) (studentId testId : string)
    (test : Test.t) (existing : TestAttempt.t)
    (now stamp : Z) (newId : string) (write_ok : bool) :
  select_active_test st testId = Some test →
  outside_window test now = false →
  test_attempts st !! (studentId, testId) = Some existing →
  TestAttempt.is_completed existing = false →
  start_test st studentId testId now stamp newId write_ok
  = (Started (TestAttempt.id existing) (TestAttempt.started_at existing), st)
  ∧ ∀ now' stamp' newId' write_ok',
      outside_window test now' = false →
      start_test (snd (start_test st studentId testId now stamp newId write_ok))
                 studentId testId now' stamp' newId' write_ok'
      = (Started (TestAttempt.id existing) (TestAttempt.started_at existing), st).
Proof.
  intros Hsel Hwin Hrow Hopen.
  pose proof (start_test_existing st studentId testId test existing
                now stamp newId write_ok Hsel Hwin Hrow Hopen) as Hfirst.
  split; [exact Hfirst|].
  intros now' stamp' newId' write_ok' Hwin'. rewrite Hfirst. cbn [snd].
  apply start_test_existing with test; assumption.
Qed.

Lemma start_test_resumes_witness :
  start_test running_store "s1" "t1" (11 * hour + 5) (11 * hour + 6) "fresh" true
  = (Started "a1" (11 * hour), running_store)
  ∧ start_test
      (snd (start_test running_store "s1" "t1" (11 * hour + 5) (11 * hour + 6) "fresh" true))
      "s1" "t1" (11 * hour + 8) (11 * hour + 9) "fresher" true
    = (Started "a1" (11 * hour), running_store).
Proof.
  destruct (start_test_resumes running_store "s1" "t1"
              (Test.mk "Short Test" (10 * hour) (12 * hour) 60 5 true)
              (TestAttempt.mk "a1" (11 * hour) None 0 false)
              (11 * hour + 5) (11 * hour + 6) "fresh" true)
    as [H1 H2]; try (vm_compute; reflexivity).
  split; [exact H1|]. apply H2. vm_compute; reflexivity.
Defined.

(** ** Reasons of a denial *)

Lemma loadActiveTest_messages_differ (s : string) :
  "Test will start at " ++ s ≠ "No active test available at the moment."
  ∧ "Test will start at " ++ s ≠ "Test time has expired."
  ∧ "No active test available at the moment." ≠ "Test time has expired.".
Proof. repeat split; intros H; inversion H. Qed.

Lemma start_test_denied_inactive st studentId testId now stamp newId write_ok :
  select_active_test st testId = None →
  start_test st studentId testId now stamp newId write_ok
  = (Error 400 "Test not found or not active", st).
Proof. intros Hsel. unfold start_test. rewrite Hsel. reflexivity. Qed.

Lemma start_test_denied_window st studentId testId test now stamp newId write_ok :
  select_active_test st testId = Some test →
  outside_window test now = true →
  start_test st studentId testId now stamp newId write_ok
  = (Error 400 "Test is not available at this time", st).
Proof. intros Hsel Hout. unfold start_test. rewrite Hsel, Hout. reflexivity. Qed.

(** C8, as stated, fails on the server: a test that has not started yet and
    one that has expired are denied with one and the same response. *)
Lemma early_late_same_denial :
  tests sample_store !! "t1" = Some sample_test
  ∧ Test.is_active sample_test = true
  ∧ (9 * hour < Test.start_time sample_test)%Z
  ∧ (Test.end_time sample_test < 13 * hour)%Z
  ∧ fst (start_test sample_store "s1" "t1" (9 * hour) (9 * hour) "a1" true)
    = Error 400 "Test is not available at this time"
  ∧ fst (start_test sample_store "s1" "t1" (13 * hour) (13 * hour) "a1" true)
    = fst (start_test sample_store "s1" "t1" (9 * hour) (9 * hour) "a1" true).
Proof. repeat split; vm_compute; reflexivity. Qed.

(** C8 (amended).  The client's check, [loadActiveTest], denies with three
    messages that differ pairwise: one when no single active test is found,
    one when the test has not started and one when it has expired.  The
    server's [start-test] has two denials: one for a test that is missing or
    inactive, and one shared by the not-yet-started and the expired test. *)
Theorem denial_reasons (toLocaleString : Z → string) (st : Store) (now : Z) :
  match select_single_active_test st with
  | None =>
    loadActiveTest_admission toLocaleString st now
    = Denied "No active test available at the moment."
  | Some test =>
    ((now < Test.start_time test)%Z →
     loadActiveTest_admission toLocaleString st now
     = Denied ("Test will start at " ++ toLocaleString (Test.start_time test)))
    ∧ ((Test.start_time test ≤ now)%Z → (Test.end_time test < now)%Z →
       loadActiveTest_admission toLocaleString st now = Denied "Test time has expired.")
    ∧ ((Test.start_time test ≤ now ≤ Test.end_time test)%Z →
       loadActiveTest_admission toLocaleString st now = Loaded test)
  end
  ∧ (∀ s : string,
       "Test will start at " ++ s ≠ "No active test available at the moment."
       ∧ "Test will start at " ++ s ≠ "Test time has expired."
       ∧ "No active test available at the moment." ≠ "Test time has expired.")
  ∧ ∀ studentId testId stamp newId write_ok,
      match tests st !! testId with
      | None =>
        fst (start_test st studentId testId now stamp newId write_ok)
        = Error 400 "Test not found or not active"
      | Some test =>
        (Test.is_active test = false →
         fst (start_test st studentId testId now stamp newId write_ok)
         = Error 400 "Test not found or not active")
        ∧ (Test.is_active test = true →
           (now < Test.start_time test ∨ Test.end_time test < now)%Z →
           fst (start_test st studentId testId now stamp newId write_ok)
           = Error 400 "Test is not available at this time")
      end.
Proof.
  split; [|split; [apply loadActiveTest_messages_differ|]].
  - unfold loadActiveTest_admission.
    destruct (select_single_active_test st) as [test|]; [|reflexivity].
    rewrite Z.gtb_ltb. repeat split.
    + intros H. apply Z.ltb_lt in H. rewrite H. reflexivity.
    + intros H1 H2. apply Z.ltb_ge in H1. apply Z.ltb_lt in H2.
      rewrite H1, H2. reflexivity.
    + intros [H1 H2]. apply Z.ltb_ge in H1, H2. rewrite H1, H2. reflexivity.
  - intros studentId testId stamp newId write_ok.
    destruct (tests st !! testId) as [test|] eqn:Htest.
    + split.
      * intros Hact. rewrite start_test_denied_inactive; [reflexivity|].
        unfold select_active_test. rewrite Htest, Hact. reflexivity.
      * intros Hact Hout. rewrite start_test_denied_window with (test := test).
        -- reflexivity.
        -- apply select_active_test_Some. auto.
        -- apply outside_window_true. exact Hout.
    + rewrite start_test_denied_inactive; [reflexivity|].
      unfold select_active_test. rewrite Htest. reflexivity.
Qed.

Lemma denial_reasons_witness :
  loadActiveTest_admission (λ _, "10:00") sample_store (9 * hour)
  = Denied "Test will start at 10:00"
  ∧ loadActiveTest_admission (λ _, "10:00") sample_store (13 * hour)
    = Denied "Test time has expired."
  ∧ fst (start_test sample_store "s1" "t1" (13 * hour) (13 * hour) "a1" true)
    = Error 400 "Test is not available at this time".
Proof.
  pose proof (denial_reasons (λ _, "10:00") sample_store (9 * hour)) as (Hearly & _ & _).
  pose proof (denial_reasons (λ _, "10:00") sample_store (13 * hour)) as (Hlate & _ & Hsrv).
  specialize (Hsrv "s1" "t1" (13 * hour)%Z "a1" true).
  change (select_single_active_test sample_store) with (Some sample_test) in Hearly, Hlate.
  change (tests sample_store !! "t1") with (Some sample_test) in Hsrv.
  destruct Hearly as (Hearly & _). destruct Hlate as (_ & Hlate & _).
  destruct Hsrv as (_ & Hsrv).
  split; [apply Hearly; reflexivity|].
  split; [apply Hlate; vm_compute; congruence|].
  apply Hsrv; [reflexivity|]. right. reflexivity.
Defined.

(** ** Recording an answer *)

Lemma submit_answer_response st attemptId questionId selectedAnswer write_ok :
  fst (submit_answer st attemptId questionId selectedAnswer write_ok)
  = if write_ok && answer_accepted st attemptId questionId selectedAnswer
    then Success else Error 500 "Failed to save answer".
Proof.
  unfold submit_answer.
  destruct (write_ok && answer_accepted st attemptId questionId selectedAnswer);
    reflexivity.
Qed.

Lemma submit_answer_rejected st attemptId questionId selectedAnswer write_ok :
  write_ok && answer_accepted st attemptId questionId selectedAnswer = false →
  submit_answer st attemptId questionId selectedAnswer write_ok
  = (Error 500 "Failed to save answer", st).
Proof. intros H. unfold submit_answer. rewrite H. reflexivity. Qed.

Lemma submit_answer_store st attemptId questionId selectedAnswer :
  answer_accepted st attemptId questionId selectedAnswer = true →
  submit_answer st attemptId questionId selectedAnswer true
  = (Success,
     mkStore (tests st) (questions st) (test_attempts st)
       (<[(attemptId, questionId) :=
            StudentAnswer.mk (selected_column selectedAnswer)
              (isCorrect (questions st !! questionId) selectedAnswer)]>
          (student_answers st))).
Proof. intros H. unfold submit_answer. rewrite H. reflexivity. Qed.

Lemma attempt_exists_true st attemptId :
  attempt_exists st attemptId = true
  ↔ ∃ key row, test_attempts st !! key = Some row ∧ TestAttempt.id row = attemptId.
Proof.
  unfold attempt_exists. rewrite existsb_exists. split.
  - intros ([key row] & Hin & Heq). apply list_elem_of_In, elem_of_map_to_list in Hin.
    apply String.eqb_eq in Heq. eauto.
  - intros (key & row & Hrow & Hid). exists (key, row). split.
    + apply list_elem_of_In, elem_of_map_to_list. exact Hrow.
    + apply String.eqb_eq. exact Hid.
Qed.

Lemma answer_accepted_true st attemptId questionId selectedAnswer :
  answer_accepted st attemptId questionId selectedAnswer = true
  ↔ selected_answer_check selectedAnswer = true
    ∧ is_Some (questions st !! questionId)
    ∧ attempt_exists st attemptId = true
    ∧ student_answers st !! (attemptId, questionId) = None.
Proof.
  unfold answer_accepted. rewrite !andb_true_iff, !bool_decide_eq_true. tauto.
Qed.

Lemma selected_answer_check_text s :
  selected_answer_check (Text s) = true ↔ s = "A" ∨ s = "B" ∨ s = "C" ∨ s = "D".
Proof.
  cbn [selected_answer_check]. rewrite !orb_true_iff, !String.eqb_eq. tauto.
Qed.


Lemma count_correct_perm l1 l2 : l1 ≡ₚ l2 → count_correct l1 = count_correct l2.
Proof. intros H. unfold count_correct. rewrite H. reflexivity. Qed.

Lemma count_incorrect_perm l1 l2 : l1 ≡ₚ l2 → count_incorrect l1 = count_incorrect l2.
Proof. intros H. unfold count_incorrect. rewrite H. reflexivity. Qed.

(** C6, as stated, fails: an upper-case letter recorded against the same
    letter stored in lower case as [correct_answer] is marked incorrect, and
    a lower-case letter sent against an upper-case [correct_answer] is not
    made upper case but rejected by the store, so that nothing is recorded. *)
Lemma uppercase_against_lowercase :
  Question.correct_answer <$> questions lowercase_store !! "q1" = Some "b"
  ∧ fst (submit_answer lowercase_store "a1" "q1" (Text "B") true) = Success
  ∧ student_answers (snd (submit_answer lowercase_store "a1" "q1" (Text "B") true))
      !! ("a1", "q1")
    = Some (StudentAnswer.mk (Some "B") false)
  ∧ Question.correct_answer <$> questions running_store !! "q3" = Some "B"
  ∧ submit_answer running_store "a1" "q3" (Text "b") true
    = (Error 500 "Failed to save answer", running_store).
Proof. repeat split; vm_compute; reflexivity. Qed.

(** C6 (amended).  For a stored question [submit-answer] marks the answer
    correct exactly when [selectedAnswer] is a string identical to the
    question's [correct_answer], letter case included.  When the row is
    recorded, it holds [selectedAnswer] as it was sent and that mark; a
    string other than A, B, C or D, a lower-case letter among them, is
    rejected by the store with the 500 answer and nothing is recorded. *)
Theorem submit_answer_exact_match (st : Store) (attemptId questionId : string)
    (selectedAnswer : SelectedAnswer) (write_ok : bool) (question : Question.t) :
  questions st !! questionId = Some question →
  (isCorrect (questions st !! questionId) selectedAnswer = true
   ↔ selectedAnswer = Text (Question.correct_answer question))
  ∧ (fst (submit_answer st attemptId questionId selectedAnswer write_ok) = Success →
     student_answers (snd (submit_answer st attemptId questionId selectedAnswer write_ok))
       !! (attemptId, questionId)
     = Some (StudentAnswer.mk (selected_column selectedAnswer)
               (isCorrect (questions st !! questionId) selectedAnswer))
     ∧ ∀ s, selectedAnswer = Text s →
            selected_column selectedAnswer = Some s
            ∧ (s = "A" ∨ s = "B" ∨ s = "C" ∨ s = "D"))
  ∧ (∀ s, selectedAnswer = Text s →
          ¬ (s = "A" ∨ s = "B" ∨ s = "C" ∨ s = "D") →
          submit_answer st attemptId questionId selectedAnswer write_ok
          = (Error 500 "Failed to save answer", st)).
Proof.
  intros Hq. split; [|split].
  - rewrite Hq. destruct selectedAnswer as [| |s|]; cbn [isCorrect];
      [split; intros H; discriminate H..| |split; intros H; discriminate H].
    rewrite String.eqb_eq. split; [intros ->; reflexivity|intros [= ->]; reflexivity].
  - rewrite submit_answer_response.
    destruct (write_ok && answer_accepted st attemptId questionId selectedAnswer)
      eqn:Hacc; [intros _|intros [=]].
    apply andb_true_iff in Hacc as [-> Hacc].
    rewrite (submit_answer_store _ _ _ _ Hacc). cbn [snd student_answers].
    rewrite lookup_insert_eq. split; [reflexivity|].
    intros s ->. split; [reflexivity|].
    apply answer_accepted_true in Hacc as (Hcheck & _).
    apply selected_answer_check_text. exact Hcheck.
  - intros s -> Hbad. apply submit_answer_rejected.
    apply andb_false_iff. right. apply not_true_iff_false. intros Hacc.
    apply answer_accepted_true in Hacc as (Hcheck & _).
    apply Hbad, selected_answer_check_text, Hcheck.
Qed.

Lemma submit_answer_exact_match_witness :
  student_answers (snd (submit_answer running_store "a1" "q3" (Text "B") true))
    !! ("a1", "q3")
  = Some (StudentAnswer.mk (Some "B") true)
  ∧ submit_answer running_store "a1" "q3" (Text "b") true
    = (Error 500 "Failed to save answer", running_store).
Proof.
  destruct (submit_answer_exact_match running_store "a1" "q3" (Text "B") true
              (Question.mk "t1" "planet" "B")) as (_ & Hrow & _);
    [vm_compute; reflexivity|].
  destruct (submit_answer_exact_match running_store "a1" "q3" (Text "b") true
              (Question.mk "t1" "planet" "B")) as (_ & _ & Hbad);
    [vm_compute; reflexivity|].
  split.
  - apply Hrow. vm_compute. reflexivity.
  - apply (Hbad "b" eq_refl). intros [H|[H|[H|H]]]; discriminate H.
Defined.

Lemma attempt_exists_reopened st attemptId :
  attempt_exists (reopened st) attemptId = attempt_exists st attemptId.
Proof.
  assert (H : attempt_exists (reopened st) attemptId = true
              ↔ attempt_exists st attemptId = true).
  { rewrite !attempt_exists_true. unfold reopened. cbn [test_attempts]. split.
    - intros (key & row & Hrow & Hid). rewrite lookup_fmap in Hrow.
      destruct (test_attempts st !! key) as [row0|] eqn:Hrow0; [|discriminate Hrow].
      cbn in Hrow. injection Hrow as <-. cbn in Hid. eauto.
    - intros (key & row & Hrow & Hid). exists key. eexists.
      rewrite lookup_fmap, Hrow. cbn. split; [reflexivity|exact Hid]. }
  destruct (attempt_exists (reopened st) attemptId), (attempt_exists st attemptId);
    try reflexivity; [symmetry|]; apply H; reflexivity.
Qed.

(** C2, as stated, fails: on the submitted attempt [a1] the handler reports
    success and records an answer to [q3], which had none. *)
Lemma late_answer_recorded :
  TestAttempt.is_completed <$> test_attempts graded_store !! ("s1", "t1") = Some true
  ∧ TestAttempt.id <$> test_attempts graded_store !! ("s1", "t1") = Some "a1"
  ∧ student_answers graded_store !! ("a1", "q3") = None
  ∧ fst (submit_answer graded_store "a1" "q3" (Text "B") true) = Success
  ∧ student_answers (snd (submit_answer graded_store "a1" "q3" (Text "B") true))
      !! ("a1", "q3")
    = Some (StudentAnswer.mk (Some "B") true)
  ∧ student_answers (snd (submit_answer graded_store "a1" "q3" (Text "B") true))
    ≠ student_answers graded_store.
Proof.
  repeat split; try (vm_compute; reflexivity).
  intros H. apply (f_equal (λ m, m !! ("a1", "q3"))) in H.
  vm_compute in H. discriminate H.
Qed.

(** C2 (amended).  [submit-answer] never looks at the owning attempt's
    [is_completed]: for a completed attempt it answers, and writes, exactly
    as it would if no attempt were completed; its only answers are success
    and the 500 of a write the store did not take, never a refusal for a
    finalized attempt.  In particular an answer to a stored question that the
    attempt has not answered yet, with a value the store admits, is recorded
    under [(attemptId, questionId)] with success, the attempts and the other
    tables staying as they were. *)
Theorem submit_answer_after_completion (st : Store) (studentId testId : string)
    (attempt : TestAttempt.t) (attemptId questionId : string) :
  test_attempts st !! (studentId, testId) = Some attempt →
  TestAttempt.id attempt = attemptId →
  TestAttempt.is_completed attempt = true →
  (∀ selectedAnswer write_ok,
     fst (submit_answer st attemptId questionId selectedAnswer write_ok)
     = fst (submit_answer (reopened st) attemptId questionId selectedAnswer write_ok)
     ∧ student_answers (snd (submit_answer st attemptId questionId selectedAnswer write_ok))
       = student_answers
           (snd (submit_answer (reopened st) attemptId questionId selectedAnswer write_ok))
     ∧ (fst (submit_answer st attemptId questionId selectedAnswer write_ok) = Success
        ∨ fst (submit_answer st attemptId questionId selectedAnswer write_ok)
          = Error 500 "Failed to save answer")
     ∧ test_attempts (snd (submit_answer st attemptId questionId selectedAnswer write_ok))
       = test_attempts st)
  ∧ ∀ selectedAnswer question,
      questions st !! questionId = Some question →
      selected_answer_check selectedAnswer = true →
      student_answers st !! (attemptId, questionId) = None →
      submit_answer st attemptId questionId selectedAnswer true
      = (Success,
         mkStore (tests st) (questions st) (test_attempts st)
           (<[(attemptId, questionId) :=
                StudentAnswer.mk (selected_column selectedAnswer)
                  (isCorrect (Some question) selectedAnswer)]>
              (student_answers st))).
Proof.
  intros Hrow Hid _. split.
  - intros selectedAnswer write_ok.
    assert (Hsame : answer_accepted (reopened st) attemptId questionId selectedAnswer
                    = answer_accepted st attemptId questionId selectedAnswer).
    { unfold answer_accepted. rewrite attempt_exists_reopened. reflexivity. }
    unfold submit_answer. rewrite Hsame.
    destruct (write_ok && answer_accepted st attemptId questionId selectedAnswer);
      cbn; auto.
  - intros selectedAnswer question Hq Hcheck Hnone.
    rewrite submit_answer_store; [rewrite Hq; reflexivity|].
    apply answer_accepted_true. split; [exact Hcheck|]. split; [rewrite Hq; eauto|].
    split; [|exact Hnone]. apply attempt_exists_true. eauto.
Qed.

Lemma submit_answer_after_completion_witness :
  submit_answer graded_store "a1" "q3" (Text "B") true
  = (Success,
     mkStore (tests graded_store) (questions graded_store) (test_attempts graded_store)
       (<[("a1", "q3") := StudentAnswer.mk (Some "B") true]>
          (student_answers graded_store))).
Proof.
  refine (proj2 (submit_answer_after_completion graded_store "s1" "t1"
                   (TestAttempt.mk "a1" (11 * hour) (Some (11 * hour + 7)%Z)
                                   (0 + 1 - (1 # 4)) true)
                   "a1" "q3" _ _ _)
                (Text "B") (Question.mk "t1" "planet" "B") _ _ _);
    vm_compute; reflexivity.
Defined.




(** ** Submitting a test more than once *)

Lemma select_answers_update st attemptId now s a :
  select_answers (update_attempt st attemptId now s) a = select_answers st a.
Proof. reflexivity. Qed.

Lemma finalize_row_twice attemptId n1 n2 s1 s2 row :
  finalize_row attemptId n2 s2 (finalize_row attemptId n1 s1 row)
  = finalize_row attemptId n2 s2 row.
Proof.
  unfold finalize_row.
  destruct (String.eqb (TestAttempt.id row) attemptId) eqn:Hid; cbn [TestAttempt.id].
  - rewrite Hid. reflexivity.
  - rewrite Hid. reflexivity.
Qed.

Lemma update_attempt_twice st attemptId n1 n2 s1 s2 :
  update_attempt (update_attempt st attemptId n1 s1) attemptId n2 s2
  = update_attempt st attemptId n2 s2.
Proof.
  unfold update_attempt. cbn [tests questions test_attempts student_answers].
  f_equal. rewrite <- map_fmap_compose. apply map_fmap_ext.
  intros k row _. apply finalize_row_twice.
Qed.

Lemma update_attempt_lookup st attemptId now s key row :
  test_attempts st !! key = Some row →
  TestAttempt.id row = attemptId →
  test_attempts (update_attempt st attemptId now s) !! key
  = Some (TestAttempt.mk attemptId (TestAttempt.started_at row) (Some now) s true).
Proof.
  intros Hrow Hid. unfold update_attempt. cbn [test_attempts].
  rewrite lookup_fmap, Hrow. cbn. unfold finalize_row.
  rewrite Hid, String.eqb_refl. reflexivity.
Qed.

(** The handler is its two store calls made one after the other. *)
Lemma submit_test_steps st attemptId n1 n2 w1 w2 :
  let '(st1, task, log1) := submit_step n1 w1 st (AwaitSelect attemptId) in
  let '(st2, task', log2) := submit_step n2 w2 st1 task in
  st1 = st
  ∧ task' = Replied (fst (submit_test st attemptId n2 w2))
  ∧ st2 = snd (submit_test st attemptId n2 w2).
Proof. unfold submit_test. cbn [submit_step]. destruct w2; auto. Qed.

(** C1, as stated, fails: a second [submit-test] on the submitted attempt
    [a1] answers with a freshly computed result, not with a refusal, and
    moves [submitted_at]; after an answer to a further question recorded in
    between it also replaces the stored score. *)
Lemma resubmit_overwrites :
  test_attempts graded_store !! ("s1", "t1")
  = Some (TestAttempt.mk "a1" (11 * hour) (Some (11 * hour + 7)%Z) (0 + 1 - (1 # 4)) true)
  ∧ fst (submit_test graded_store "a1" (11 * hour + 9) true)
    = Scored (mkResult (0 + 1 - (1 # 4)) 2 1 1 38)
  ∧ test_attempts (snd (submit_test graded_store "a1" (11 * hour + 9) true)) !! ("s1", "t1")
    = Some (TestAttempt.mk "a1" (11 * hour) (Some (11 * hour + 9)%Z) (0 + 1 - (1 # 4)) true)
  ∧ TestAttempt.score
      <$> test_attempts
            (snd (submit_test (snd (submit_answer graded_store "a1" "q3" (Text "B") true))
                              "a1" (11 * hour + 9) true)) !! ("s1", "t1")
    ≠ TestAttempt.score <$> test_attempts graded_store !! ("s1", "t1").
Proof.
  repeat split; try (vm_compute; reflexivity).
  vm_compute. intros [=].
Qed.

(** C1 (amended).  On a completed attempt [submit-test] does not refuse and
    does not answer from the stored score: it tallies the answers stored
    now, answers with that result, and writes the tallied score and the
    current instant as [submitted_at] over the attempt, which stays
    completed; the answers are not touched.  A further call right after
    answers with the identical result and stores the same score. *)
Theorem submit_test_again (st : Store) (studentId testId : string)
    (attempt : TestAttempt.t) (attemptId : string) (now : Z) :
  test_attempts st !! (studentId, testId) = Some attempt →
  TestAttempt.id attempt = attemptId →
  TestAttempt.is_completed attempt = true →
  let r := score_answers (select_answers st attemptId) in
  let st' := snd (submit_test st attemptId now true) in
  fst (submit_test st attemptId now true) = Scored r
  ∧ test_attempts st' !! (studentId, testId)
    = Some (TestAttempt.mk attemptId (TestAttempt.started_at attempt)
                           (Some now) (score r) true)
  ∧ student_answers st' = student_answers st
  ∧ ∀ now',
      submit_test st' attemptId now' true
      = (Scored r, update_attempt st attemptId now' (score r)).
Proof.
  intros Hrow Hid _ r st'. subst r st'. unfold submit_test. cbn [fst snd].
  split; [reflexivity|]. split; [apply update_attempt_lookup; assumption|].
  split; [reflexivity|].
  intros now'. rewrite select_answers_update, update_attempt_twice. reflexivity.
Qed.

Lemma submit_test_again_witness :
  fst (submit_test graded_store "a1" (11 * hour + 9) true)
  = Scored (score_answers (select_answers graded_store "a1"))
  ∧ submit_test (snd (submit_test graded_store "a1" (11 * hour + 9) true))
                "a1" (11 * hour + 10) true
    = (Scored (score_answers (select_answers graded_store "a1")),
       update_attempt graded_store "a1" (11 * hour + 10)
         (score (score_answers (select_answers graded_store "a1")))).
Proof.
  destruct (submit_test_again graded_store "s1" "t1"
              (TestAttempt.mk "a1" (11 * hour) (Some (11 * hour + 7)%Z)
                              (0 + 1 - (1 # 4)) true)
              "a1" (11 * hour + 9))
    as (Hfirst & _ & _ & Hnext); try (vm_compute; reflexivity).
  split; [exact Hfirst|]. exact (Hnext (11 * hour + 10)%Z).
Defined.

(** ** Two submissions racing *)

Lemma count_calls_app p l1 l2 :
  count_calls p (l1 ++ l2) = count_calls p l1 + count_calls p l2.
Proof. unfold count_calls. rewrite List.filter_app, length_app. reflexivity. Qed.

Lemma run_race_snoc c schedule t :
  run_race c (schedule ++ [t]) = race_step (run_race c schedule) t.
Proof. unfold run_race. rewrite fold_left_app. reflexivity. Qed.

(** What holds after every prefix of a schedule whose writes are accepted:
    each task has read the answers as they were at the start, every store
    call made is in the log, and the store is the initial one with the
    attempt finalized by the last update, if any. *)
Lemma race_invariant st attemptId schedule :
  Forall (λ t, accepted t = true) schedule →
  let r := score_answers (select_answers st attemptId) in
  let c := run_race (start_race st attemptId) schedule in
  (task1 c = AwaitSelect attemptId ∨ task1 c = AwaitUpdate attemptId r
   ∨ task1 c = Replied (Scored r))
  ∧ (task2 c = AwaitSelect attemptId ∨ task2 c = AwaitUpdate attemptId r
     ∨ task2 c = Replied (Scored r))
  ∧ count_calls is_select (calls c) = selects_done (task1 c) + selects_done (task2 c)
  ∧ count_calls is_update (calls c) = updates_done (task1 c) + updates_done (task2 c)
  ∧ ((updates_done (task1 c) + updates_done (task2 c) = 0 ∧ db c = st)
     ∨ ∃ t, t ∈ schedule ∧ db c = update_attempt st attemptId (clock t) (score r)).
Proof.
  induction schedule as [|t schedule IH] using rev_ind; intros Hacc r c.
  - subst c. cbn. repeat split; auto.
  - subst c. rewrite run_race_snoc.
    apply Forall_app in Hacc as [Hacc Ht]. apply Forall_inv in Ht.
    specialize (IH Hacc). cbv zeta in IH. fold r in IH.
    remember (run_race (start_race st attemptId) schedule) as c eqn:Hc. clear Hc.
    destruct IH as (H1 & H2 & Hs & Hu & Hdb).
    assert (Hsel : score_answers (select_answers (db c) attemptId) = r).
    { destruct Hdb as [[_ ->]|(t' & _ & ->)]; reflexivity. }
    assert (Hupd : ∀ n, update_attempt (db c) attemptId n (score r)
                        = update_attempt st attemptId n (score r)).
    { intros n. destruct Hdb as [[_ ->]|(t' & _ & ->)];
        [reflexivity|apply update_attempt_twice]. }
    assert (Hdb' : (updates_done (task1 c) + updates_done (task2 c) = 0 ∧ db c = st)
                   ∨ ∃ t', t' ∈ (schedule ++ [t])%list
                           ∧ db c = update_attempt st attemptId (clock t') (score r)).
    { destruct Hdb as [?|(t' & Hin & ?)]; [left; assumption|].
      right. exists t'. split; [|assumption]. apply elem_of_app. left. exact Hin. }
    assert (Hlast : t ∈ (schedule ++ [t])%list).
    { apply elem_of_app. right. apply list_elem_of_singleton. reflexivity. }
    clear Hdb Hacc.
    destruct t as [sec clk acc]. cbn [accepted] in Ht. subst acc.
    unfold race_step. cbn [second clock accepted].
    destruct sec.
    + destruct H2 as [E|[E|E]]; rewrite E in *; cbn [submit_step];
        cbn [db task1 task2 calls selects_done updates_done] in *;
        rewrite ?Hsel, ?Hupd, ?count_calls_app, ?Hs, ?Hu, ?app_nil_r;
        cbn [count_calls List.filter is_select is_update length];
        (split; [exact H1|]); (split; [auto|]);
        (split; [lia|]); (split; [lia|]).
      * destruct Hdb' as [[? ?]|?]; [left; split; [lia|assumption]|right; assumption].
      * right. exists (mkTurn true clk true). split; [exact Hlast|reflexivity].
      * destruct Hdb' as [[? ?]|?]; [lia|right; assumption].
    + destruct H1 as [E|[E|E]]; rewrite E in *; cbn [submit_step];
        cbn [db task1 task2 calls selects_done updates_done] in *;
        rewrite ?Hsel, ?Hupd, ?count_calls_app, ?Hs, ?Hu, ?app_nil_r;
        cbn [count_calls List.filter is_select is_update length];
        (split; [auto|]); (split; [exact H2|]);
        (split; [lia|]); (split; [lia|]).
      * destruct Hdb' as [[? ?]|?]; [left; split; [lia|assumption]|right; assumption].
      * right. exists (mkTurn false clk true). split; [exact Hlast|reflexivity].
      * destruct Hdb' as [[? ?]|?]; [lia|right; assumption].
Qed.

(** C9, as stated, fails: when the second request starts after the first
    has replied, the attempt is already completed, yet the second request
    reads the answers, tallies them and updates the attempt again, moving
    [submitted_at]; when the two overlap, both tally before either update. *)
Lemma race_scores_twice :
  let halfway := run_race (start_race running_store "a1") (take 2 one_after_the_other) in
  let final := run_race (start_race running_store "a1") one_after_the_other in
  task1 halfway = Replied (Scored (mkResult (0 + 1 - (1 # 4)) 2 1 1 38))
  ∧ task2 halfway = AwaitSelect "a1"
  ∧ TestAttempt.is_completed <$> test_attempts (db halfway) !! ("s1", "t1") = Some true
  ∧ task2 final = Replied (Scored (mkResult (0 + 1 - (1 # 4)) 2 1 1 38))
  ∧ calls final
    = [SelectAnswers "a1"; UpdateAttempt "a1" (11 * hour + 2) (0 + 1 - (1 # 4));
       SelectAnswers "a1"; UpdateAttempt "a1" (11 * hour + 4) (0 + 1 - (1 # 4))]
  ∧ count_calls is_select (calls final) = 2
  ∧ count_calls is_select (calls final) ≠ 1
  ∧ TestAttempt.submitted_at <$> test_attempts (db halfway) !! ("s1", "t1")
    = Some (Some (11 * hour + 2)%Z)
  ∧ TestAttempt.submitted_at <$> test_attempts (db final) !! ("s1", "t1")
    = Some (Some (11 * hour + 4)%Z)
  ∧ calls (run_race (start_race running_store "a1") overlapping)
    = [SelectAnswers "a1"; SelectAnswers "a1";
       UpdateAttempt "a1" (11 * hour + 3) (0 + 1 - (1 # 4));
       UpdateAttempt "a1" (11 * hour + 4) (0 + 1 - (1 # 4))].
Proof. repeat split; try (vm_compute; reflexivity). vm_compute. discriminate. Qed.

(** What one accepted turn does: either no update is made and the store is
    the same (and if both requests had replied, nothing is called at all),
    or the request whose turn it is makes its update, with this turn's clock
    and the score it had tallied, as the next call of the log. *)
Lemma race_step_cases (c : Race) (x : Turn) (attemptId : string) (r : ScoreResult) :
  accepted x = true →
  (task1 c = AwaitSelect attemptId ∨ task1 c = AwaitUpdate attemptId r
   ∨ task1 c = Replied (Scored r)) →
  (task2 c = AwaitSelect attemptId ∨ task2 c = AwaitUpdate attemptId r
   ∨ task2 c = Replied (Scored r)) →
  let done (c : Race) := updates_done (task1 c) + updates_done (task2 c) in
  (done (race_step c x) = done c
   ∧ db (race_step c x) = db c
   ∧ (done c = 2 → calls (race_step c x) = calls c))
  ∨ (done (race_step c x) = S (done c)
     ∧ db (race_step c x) = update_attempt (db c) attemptId (clock x) (score r)
     ∧ calls (race_step c x)
       = (calls c ++ [UpdateAttempt attemptId (clock x) (score r)])%list).
Proof.
  intros Hacc H1 H2 done. subst done. destruct x as [sec clk acc].
  cbn [accepted] in Hacc. subst acc. unfold race_step. cbn [second clock accepted].
  destruct sec.
  - destruct H2 as [E|[E|E]]; rewrite E; cbn [submit_step];
      cbn [db task1 task2 calls updates_done].
    + left. repeat split. destruct H1 as [E1|[E1|E1]]; rewrite E1; cbn; lia.
    + right. repeat split. lia.
    + left. repeat split. intros _. apply app_nil_r.
  - destruct H1 as [E|[E|E]]; rewrite E; cbn [submit_step];
      cbn [db task1 task2 calls updates_done].
    + left. repeat split. destruct H2 as [E2|[E2|E2]]; rewrite E2; cbn; lia.
    + right. repeat split.
    + left. repeat split. intros _. apply app_nil_r.
Qed.

(** Once both requests have made their update, the schedule splits at the
    turn that made the second one: one update had been made before it, its
    update is the last call of the log, and the store is the initial one
    finalized with that turn's clock. *)
Lemma race_last_writer st attemptId schedule :
  Forall (λ t, accepted t = true) schedule →
  let r := score_answers (select_answers st attemptId) in
  let start := start_race st attemptId in
  let c := run_race start schedule in
  updates_done (task1 c) + updates_done (task2 c) = 2 →
  ∃ before last after,
    schedule = (before ++ last :: after)%list
    ∧ count_calls is_update (calls (run_race start before)) = 1
    ∧ calls (run_race start (before ++ [last]))
      = (calls (run_race start before)
         ++ [UpdateAttempt attemptId (clock last) (score r)])%list
    ∧ calls c = calls (run_race start (before ++ [last]))
    ∧ db c = update_attempt st attemptId (clock last) (score r).
Proof.
  induction schedule as [|x schedule IH] using rev_ind; intros Hacc r start c Hdone.
  - subst c. cbn in Hdone. discriminate Hdone.
  - subst c. rewrite run_race_snoc in *.
    apply Forall_app in Hacc as [Hacc Hx]. apply Forall_inv in Hx.
    specialize (IH Hacc). cbv zeta in IH. fold r start in IH.
    destruct (race_invariant st attemptId schedule Hacc) as (H1 & H2 & _ & Hu & Hdb).
    fold r start in H1, H2, Hu, Hdb.
    destruct (race_step_cases (run_race start schedule) x attemptId r Hx H1 H2)
      as [(Hsame & Hdbs & Hcalls)|(Hnext & Hdbs & Hcalls)]; cbv beta in *.
    + rewrite Hsame in Hdone.
      destruct (IH Hdone) as (before & last & after & -> & Hone & Hlog & Hend & Hfin).
      exists before, last, (after ++ [x])%list.
      split; [rewrite <- app_assoc; reflexivity|].
      split; [exact Hone|]. split; [exact Hlog|].
      split; [rewrite (Hcalls Hdone); exact Hend|].
      rewrite Hdbs. exact Hfin.
    + rewrite Hnext in Hdone.
      exists schedule, x, []. split; [reflexivity|].
      split; [rewrite Hu; lia|].
      rewrite run_race_snoc. split; [exact Hcalls|]. split; [reflexivity|].
      rewrite Hdbs. destruct Hdb as [[Hzero _]|(t & _ & ->)]; [lia|].
      apply update_attempt_twice.
Qed.

(** C9 (amended).  Of two [submit-test] requests for one attempt whose store
    calls interleave in any order, with every write accepted, neither looks
    at [is_completed]: each reads the answers and tallies them, and each
    updates the attempt, so there are two tallies and two updates.  Both
    reply with the same result, the tally of the answers as stored at the
    start; the answers are untouched.  The update that ran last is the last
    store call made: after it the store is the initial one with the attempt
    completed, that score stored and [submitted_at] the clock of the turn
    that made this last update. *)
Theorem submit_test_race (st : Store) (attemptId : string)
    (schedule : list Turn) (resp1 resp2 : Response) :
  Forall (λ t, accepted t = true) schedule →
  task1 (run_race (start_race st attemptId) schedule) = Replied resp1 →
  task2 (run_race (start_race st attemptId) schedule) = Replied resp2 →
  let r := score_answers (select_answers st attemptId) in
  let start := start_race st attemptId in
  let final := run_race start schedule in
  resp1 = Scored r
  ∧ resp2 = Scored r
  ∧ count_calls is_select (calls final) = 2
  ∧ count_calls is_update (calls final) = 2
  ∧ student_answers (db final) = student_answers st
  ∧ ∃ before last after,
      schedule = (before ++ last :: after)%list
      ∧ count_calls is_update (calls (run_race start before)) = 1
      ∧ calls (run_race start (before ++ [last]))
        = (calls (run_race start before)
           ++ [UpdateAttempt attemptId (clock last) (score r)])%list
      ∧ calls final = calls (run_race start (before ++ [last]))
      ∧ db final = update_attempt st attemptId (clock last) (score r)
      ∧ ∀ key row,
          test_attempts st !! key = Some row →
          TestAttempt.id row = attemptId →
          test_attempts (db final) !! key
          = Some (TestAttempt.mk attemptId (TestAttempt.started_at row)
                                 (Some (clock last)) (score r) true).
Proof.
  intros Hacc Hr1 Hr2 r start final.
  destruct (race_invariant st attemptId schedule Hacc) as (H1 & H2 & Hs & Hu & _).
  fold r start final in H1, H2, Hs, Hu. fold start final in Hr1, Hr2.
  assert (Hdone : updates_done (task1 final) + updates_done (task2 final) = 2)
    by (rewrite Hr1, Hr2; reflexivity).
  destruct (race_last_writer st attemptId schedule Hacc Hdone)
    as (before & last & after & Hsplit & Hone & Hlog & Hend & Hfin).
  fold r start final in Hone, Hlog, Hend, Hfin.
  rewrite Hr1, Hr2 in *. cbn [selects_done updates_done] in *.
  assert (E1 : resp1 = Scored r) by (destruct H1 as [H|[H|H]]; congruence).
  assert (E2 : resp2 = Scored r) by (destruct H2 as [H|[H|H]]; congruence).
  split; [exact E1|]. split; [exact E2|]. split; [lia|]. split; [lia|].
  split; [rewrite Hfin; reflexivity|].
  exists before, last, after.
  split; [exact Hsplit|]. split; [exact Hone|]. split; [exact Hlog|].
  split; [exact Hend|]. split; [exact Hfin|].
  intros key row Hrow Hid. rewrite Hfin. apply update_attempt_lookup; assumption.
Qed.

Lemma submit_test_race_witness :
  let final := run_race (start_race running_store "a1") overlapping in
  task1 final = Replied (Scored (score_answers (select_answers running_store "a1")))
  ∧ task2 final = Replied (Scored (score_answers (select_answers running_store "a1")))
  ∧ count_calls is_update (calls final) = 2
  ∧ ∃ before last after,
      overlapping = (before ++ last :: after)%list
      ∧ clock last = (11 * hour + 4)%Z
      ∧ TestAttempt.submitted_at <$> test_attempts (db final) !! ("s1", "t1")
        = Some (Some (clock last)).
Proof.
  intros final.
  assert (Hacc : Forall (λ t, accepted t = true) overlapping).
  { repeat constructor. }
  destruct (submit_test_race running_store "a1" overlapping
              (Scored (mkResult (0 + 1 - (1 # 4)) 2 1 1 38))
              (Scored (mkResult (0 + 1 - (1 # 4)) 2 1 1 38)) Hacc)
    as (_ & _ & _ & Hu & _ & before & last & after & Hsplit & _ & _ & _ & _ & Hrow);
    [vm_compute; reflexivity..|].
  split; [vm_compute; reflexivity|]. split; [vm_compute; reflexivity|].
  split; [exact Hu|].
  exists before, last, after. split; [exact Hsplit|].
  specialize (Hrow ("s1", "t1") (TestAttempt.mk "a1" (11 * hour) None 0 false)
                eq_refl eq_refl).
  fold final in Hrow.
  assert (Hlast : TestAttempt.submitted_at <$> test_attempts (db final) !! ("s1", "t1")
                  = Some (Some (11 * hour + 4)%Z)) by (vm_compute; reflexivity).
  rewrite Hrow in Hlast |- *. cbn in Hlast |- *.
  split; [|reflexivity]. injection Hlast as Hclock. exact Hclock.
Defined.

(** * Further properties of the handlers *)

(** ** [start-test]: creating, refusing, and what it leaves alone *)

(** A first [start-test] for an admissible test inserts an attempt with the
    generated id, [started_at] at the insert's clock reading, no
    [submitted_at], score 0 and [is_completed = false], and answers with that
    id and instant; a rejected insert answers 500 and inserts nothing. *)
Lemma start_test_creates (st : Store) (studentId testId : string) (test : Test.t)
    (now stamp : Z) (newId : string) :
  select_active_test st testId = Some test →
  outside_window test now = false →
  test_attempts st !! (studentId, testId) = None →
  fst (start_test st studentId testId now stamp newId true) = Started newId stamp
  ∧ test_attempts (snd (start_test st studentId testId now stamp newId true))
      !! (studentId, testId)
    = Some (TestAttempt.mk newId stamp None 0 false)
  ∧ start_test st studentId testId now stamp newId false
    = (Error 500 "Failed to start test", st).
Proof.
  intros Hsel Hwin Hnone. unfold start_test. rewrite Hsel, Hwin, Hnone.
  cbn [fst snd test_attempts new_attempt TestAttempt.id TestAttempt.started_at].
  rewrite lookup_insert_eq. auto.
Qed.

(** X2.  Whatever [start-test] answers, every attempt that was stored is
    still stored unchanged afterwards, and the tests, the questions and the
    answers are the same tables. *)
Lemma start_test_keeps_rows (st : Store) (studentId testId : string)
    (now stamp : Z) (newId : string) (write_ok : bool)
    (key : string * string) (row : TestAttempt.t) :
  test_attempts st !! key = Some row →
  let st' := snd (start_test st studentId testId now stamp newId write_ok) in
  test_attempts st' !! key = Some row
  ∧ tests st' = tests st
  ∧ questions st' = questions st
  ∧ student_answers st' = student_answers st.
Proof.
  intros Hrow st'. subst st'. unfold start_test.
  destruct (select_active_test st testId) as [test|]; [|auto].
  destruct (outside_window test now); [auto|].
  destruct (test_attempts st !! (studentId, testId)) as [a|] eqn:Hexisting.
  - destruct (TestAttempt.is_completed a); auto.
  - destruct write_ok; [|auto]. cbn [snd test_attempts tests questions student_answers].
    repeat split. rewrite lookup_insert_ne; [exact Hrow|].
    intros <-. congruence.
Qed.

Lemma start_test_keeps_rows_witness :
  test_attempts (snd (start_test running_store "s2" "t1" (11 * hour) (11 * hour) "a2" true))
    !! ("s1", "t1")
  = Some (TestAttempt.mk "a1" (11 * hour) None 0 false).
Proof.
  apply (start_test_keeps_rows running_store "s2" "t1" (11 * hour) (11 * hour) "a2" true
           ("s1", "t1") (TestAttempt.mk "a1" (11 * hour) None 0 false)).
  vm_compute. reflexivity.
Defined.

(** X3.  A request that is answered with an error has written nothing: the
    store after [start-test], [submit-answer] or [submit-test] is the store
    before. *)
Lemma error_writes_nothing (st : Store) (status : Z) (msg : string) :
  (∀ studentId testId now stamp newId write_ok,
     fst (start_test st studentId testId now stamp newId write_ok) = Error status msg →
     snd (start_test st studentId testId now stamp newId write_ok) = st)
  ∧ (∀ attemptId questionId selectedAnswer write_ok,
       fst (submit_answer st attemptId questionId selectedAnswer write_ok)
       = Error status msg →
       snd (submit_answer st attemptId questionId selectedAnswer write_ok) = st)
  ∧ (∀ attemptId now write_ok,
       fst (submit_test st attemptId now write_ok) = Error status msg →
       snd (submit_test st attemptId now write_ok) = st).
Proof.
  split; [|split].
  - intros studentId testId now stamp newId write_ok. unfold start_test.
    destruct (select_active_test st testId) as [test|]; [|reflexivity].
    destruct (outside_window test now); [reflexivity|].
    destruct (test_attempts st !! (studentId, testId)) as [a|].
    + destruct (TestAttempt.is_completed a); reflexivity.
    + destruct write_ok; [intros [=]|reflexivity].
  - intros attemptId questionId selectedAnswer write_ok. unfold submit_answer.
    destruct (write_ok && answer_accepted st attemptId questionId selectedAnswer);
      [intros [=]|reflexivity].
  - intros attemptId now write_ok. unfold submit_test.
    destruct write_ok; [intros [=]|reflexivity].
Qed.

Lemma error_writes_nothing_witness :
  snd (start_test sample_store "s1" "t1" (13 * hour) (13 * hour) "a1" true) = sample_store.
Proof.
  destruct (error_writes_nothing sample_store 400 "Test is not available at this time")
    as (Hstart & _ & _).
  apply Hstart. vm_compute. reflexivity.
Defined.

(** X1.  For a student without an attempt, an accepted [start-test] on an
    admissible test creates the attempt (generated id, [started_at] at the
    insert's clock reading, score 0, not completed); a second [start-test]
    while the test is still admissible answers with the same id and the same
    [started_at] and leaves the store as the first call left it, whatever id
    and clock the second call would have used. *)
Lemma start_then_resume (st : Store) (studentId testId : string) (test : Test.t)
    (now stamp : Z) (newId : string)
    (now' stamp' : Z) (newId' : string) (write_ok' : bool) :
  select_active_test st testId = Some test →
  outside_window test now = false →
  outside_window test now' = false →
  test_attempts st !! (studentId, testId) = None →
  let st1 := snd (start_test st studentId testId now stamp newId true) in
  fst (start_test st studentId testId now stamp newId true) = Started newId stamp
  ∧ test_attempts st1 !! (studentId, testId)
    = Some (TestAttempt.mk newId stamp None 0 false)
  ∧ start_test st1 studentId testId now' stamp' newId' write_ok'
    = (Started newId stamp, st1).
Proof.
  intros Hsel Hwin Hwin' Hnone st1.
  destruct (start_test_creates st studentId testId test now stamp newId Hsel Hwin Hnone)
    as (Hresp & Hrow & _).
  split; [exact Hresp|]. split; [exact Hrow|].
  apply start_test_twice with st test now stamp newId true; try assumption.
  rewrite <- Hresp. subst st1. apply surjective_pairing.
Qed.

Lemma start_then_resume_witness :
  start_test (snd (start_test sample_store "s1" "t1" (11 * hour) (11 * hour + 1) "a1" true))
             "s1" "t1" (11 * hour + 5) (11 * hour + 6) "a2" true
  = (Started "a1" (11 * hour + 1),
     snd (start_test sample_store "s1" "t1" (11 * hour) (11 * hour + 1) "a1" true)).
Proof.
  refine (proj2 (proj2 (start_then_resume sample_store "s1" "t1" sample_test
                          (11 * hour) (11 * hour + 1) "a1"
                          (11 * hour + 5) (11 * hour + 6) "a2" true _ _ _ _)));
    vm_compute; reflexivity.
Defined.

(** ** [submit-answer]: upsert by attempt and question *)

Lemma score_answers_perm l1 l2 :
  l1 ≡ₚ l2 →
  attempted (score_answers l1) = attempted (score_answers l2)
  ∧ correct (score_answers l1) = correct (score_answers l2)
  ∧ incorrect (score_answers l1) = incorrect (score_answers l2)
  ∧ unattempted (score_answers l1) = unattempted (score_answers l2)
  ∧ (score (score_answers l1) == score (score_answers l2))%Q.
Proof.
  intros Hperm.
  destruct (tally_counts l1) as (Hc1 & Hi1 & Hs1).
  destruct (tally_counts l2) as (Hc2 & Hi2 & Hs2).
  unfold score_answers. cbn [score attempted correct incorrect unattempted].
  rewrite Hc1, Hc2, Hi1, Hi2, Hs1, Hs2.
  rewrite (count_correct_perm _ _ Hperm), (count_incorrect_perm _ _ Hperm).
  rewrite (Permutation_length Hperm). repeat split; reflexivity.
Qed.

Lemma select_answers_other st attemptId questionId selectedAnswer write_ok other :
  other ≠ attemptId →
  select_answers (snd (submit_answer st attemptId questionId selectedAnswer write_ok)) other
  ≡ₚ select_answers st other.
Proof.
  intros Hne. unfold submit_answer.
  destruct (write_ok && answer_accepted st attemptId questionId selectedAnswer)
    eqn:Hacc; [|reflexivity].
  apply andb_true_iff in Hacc as [_ Hacc].
  apply answer_accepted_true in Hacc as (_ & _ & _ & Hnone).
  unfold select_answers. cbn [snd student_answers].
  rewrite map_to_list_insert by exact Hnone.
  rewrite filter_cons. cbn [fst]. rewrite decide_False by congruence. reflexivity.
Qed.



(** X5.  Recording an answer for one attempt does not change what
    [submit-test] computes for any other attempt: the same counts and the
    same score. *)
Lemma submit_answer_other_attempt (st : Store)
    (attemptId questionId : string) (selectedAnswer : SelectedAnswer) (other : string) :
  other ≠ attemptId →
  let before := score_answers (select_answers st other) in
  let after :=
    score_answers
      (select_answers (snd (submit_answer st attemptId questionId selectedAnswer true))
                      other) in
  attempted after = attempted before
  ∧ correct after = correct before
  ∧ incorrect after = incorrect before
  ∧ unattempted after = unattempted before
  ∧ (score after == score before)%Q.
Proof.
  intros Hne before after. subst before after.
  apply score_answers_perm, select_answers_other. exact Hne.
Qed.

Lemma submit_answer_other_attempt_witness :
  fst (submit_answer shared_store "a2" "q1" (Text "B") true) = Success
  ∧ attempted (score_answers
                 (select_answers (snd (submit_answer shared_store "a2" "q1" (Text "B") true))
                                 "a1"))
    = 2%Z.
Proof.
  split; [vm_compute; reflexivity|].
  destruct (submit_answer_other_attempt shared_store "a2" "q1" (Text "B") "a1")
    as (Hatt & _); [intros [=]|].
  rewrite Hatt. vm_compute. reflexivity.
Defined.



(** ** [submit-test]: bounds, frame and edge cases *)

(** X7.  The score of a submission lies between minus a quarter of the
    number of attempted questions and that number, and four times the score
    is the integer [4 * correct - incorrect]. *)
Lemma submit_test_score_bounds (st : Store) (attemptId : string) :
  let r := score_answers (select_answers st attemptId) in
  (0 <= correct r)%Z ∧ (0 <= incorrect r)%Z
  ∧ (- (1 # 4) * inject_Z (attempted r) <= score r)%Q
  ∧ (score r <= inject_Z (attempted r))%Q
  ∧ (4 * score r == inject_Z (4 * correct r - incorrect r))%Q.
Proof.
  intros r. subst r.
  destruct (tally_counts (select_answers st attemptId)) as (Hc & Hi & Hs).
  pose proof (counts_length (select_answers st attemptId)) as Hlen.
  unfold score_answers. cbn [score attempted correct incorrect].
  rewrite Hc, Hi, Hs, <- Hlen.
  assert (H0c : (0 <= count_correct (select_answers st attemptId))%Z)
    by (unfold count_correct; lia).
  assert (H0i : (0 <= count_incorrect (select_answers st attemptId))%Z)
    by (unfold count_incorrect; lia).
  set (c := count_correct (select_answers st attemptId)) in *.
  set (i := count_incorrect (select_answers st attemptId)) in *.
  assert (Qc : (0 <= inject_Z c)%Q) by (change (inject_Z 0 <= inject_Z c)%Q; rewrite <- Zle_Qle; exact H0c).
  assert (Qi : (0 <= inject_Z i)%Q) by (change (inject_Z 0 <= inject_Z i)%Q; rewrite <- Zle_Qle; exact H0i).
  split; [exact H0c|]. split; [exact H0i|].
  rewrite inject_Z_plus. split; [|split].
  - unfold Qle, Qmult, Qplus, Qopp, inject_Z; cbn [Qnum Qden]. nia.
  - unfold Qle, Qmult, Qplus, Qopp, inject_Z; cbn [Qnum Qden]. nia.
  - unfold Z.sub. rewrite inject_Z_plus, inject_Z_mult, inject_Z_opp.
    change (inject_Z 4) with 4%Q. ring.
Qed.

Lemma submit_test_score_bounds_witness :
  (- (1 # 4) * 15 <= score (score_answers (select_answers fifteen_store "a9")))%Q
  ∧ (score (score_answers (select_answers fifteen_store "a9")) <= 15)%Q.
Proof.
  destruct (submit_test_score_bounds fifteen_store "a9") as (_ & _ & Hlo & Hhi & _).
  split; [exact Hlo|exact Hhi].
Defined.

(** X8.  The result of [submit-test] does not depend on the order in which
    the store returns the answer rows: the counts are equal and the scores
    are the same number. *)
Lemma score_order_irrelevant (answers answers' : list StudentAnswer.t) :
  answers ≡ₚ answers' →
  attempted (score_answers answers) = attempted (score_answers answers')
  ∧ correct (score_answers answers) = correct (score_answers answers')
  ∧ incorrect (score_answers answers) = incorrect (score_answers answers')
  ∧ unattempted (score_answers answers) = unattempted (score_answers answers')
  ∧ (score (score_answers answers) == score (score_answers answers'))%Q.
Proof. apply score_answers_perm. Qed.

Lemma score_order_irrelevant_witness :
  (score (score_answers [StudentAnswer.mk (Some "A") true; StudentAnswer.mk (Some "B") false;
                         StudentAnswer.mk (Some "C") true])
   == score (score_answers [StudentAnswer.mk (Some "B") false; StudentAnswer.mk (Some "C") true;
                            StudentAnswer.mk (Some "A") true]))%Q.
Proof.
  apply (score_order_irrelevant
           [StudentAnswer.mk (Some "A") true; StudentAnswer.mk (Some "B") false; StudentAnswer.mk (Some "C") true]
           [StudentAnswer.mk (Some "B") false; StudentAnswer.mk (Some "C") true; StudentAnswer.mk (Some "A") true]).
  apply Permutation_cons_append with
    (l := [StudentAnswer.mk (Some "B") false; StudentAnswer.mk (Some "C") true])
    (x := StudentAnswer.mk (Some "A") true).
Defined.

Lemma finalize_row_other attemptId now s row :
  TestAttempt.id row ≠ attemptId → finalize_row attemptId now s row = row.
Proof.
  intros Hne. unfold finalize_row.
  destruct (String.eqb_spec (TestAttempt.id row) attemptId); [contradiction|reflexivity].
Qed.

(** X9.  [submit-test] for an id that no attempt carries and no answer
    refers to still reports success, with nothing attempted, score 0 and 40
    unattempted, and leaves the store exactly as it was. *)
Lemma submit_test_unknown_attempt (st : Store) (attemptId : string) (now : Z) :
  (∀ key row, test_attempts st !! key = Some row → TestAttempt.id row ≠ attemptId) →
  (∀ questionId, student_answers st !! (attemptId, questionId) = None) →
  submit_test st attemptId now true = (Scored (mkResult 0 0 0 0 40), st).
Proof.
  intros Hrows Hanswers.
  assert (Hnil : select_answers st attemptId = []).
  { unfold select_answers.
    assert (Hf : filter (λ kv : string * string * StudentAnswer.t, kv.1.1 = attemptId)
                   (map_to_list (student_answers st)) = []).
    { assert (Hall : Forall (λ kv : string * string * StudentAnswer.t,
                               kv.1.1 ≠ attemptId) (map_to_list (student_answers st))).
      { apply Forall_forall. intros [[a q] row] Hin. cbn. intros ->.
        apply elem_of_map_to_list in Hin. rewrite Hanswers in Hin. discriminate Hin. }
      induction Hall as [|kv l Hkv _ IH]; [reflexivity|].
      rewrite filter_cons, decide_False by exact Hkv. exact IH. }
    rewrite Hf. reflexivity. }
  unfold submit_test. rewrite Hnil. cbn. f_equal.
  unfold update_attempt. destruct st as [ts qs atts ans]. cbn in *. f_equal.
  rewrite <- (map_fmap_id atts) at 2. apply map_fmap_ext.
  intros key row Hrow. apply finalize_row_other. eauto.
Qed.

Lemma submit_test_unknown_attempt_witness :
  submit_test running_store "a404" (11 * hour) true
  = (Scored (mkResult 0 0 0 0 40), running_store).
Proof.
  apply submit_test_unknown_attempt.
  - intros key row Hrow Hid.
    assert (Hkey : key = ("s1", "t1")).
    { destruct (decide (key = ("s1", "t1"))) as [|Hne]; [assumption|].
      unfold running_store in Hrow. cbn [test_attempts] in Hrow.
      rewrite lookup_singleton_ne in Hrow by congruence. discriminate Hrow. }
    subst key. vm_compute in Hrow. injection Hrow as <-. discriminate Hid.
  - intros questionId.
    unfold running_store. cbn [student_answers list_to_map foldr].
    rewrite !lookup_insert_ne by (intros [=]). apply lookup_empty.
Defined.

(** X10.  Submitting one attempt changes no other: an attempt with another
    id is stored as before, the submitted attempt keeps its id and its
    [started_at], and the tests, questions and answers are untouched. *)
Lemma submit_test_frame (st : Store) (attemptId : string) (now : Z)
    (key : string * string) (row : TestAttempt.t) :
  test_attempts st !! key = Some row →
  let st' := snd (submit_test st attemptId now true) in
  (TestAttempt.id row ≠ attemptId → test_attempts st' !! key = Some row)
  ∧ (∃ row', test_attempts st' !! key = Some row'
             ∧ TestAttempt.id row' = TestAttempt.id row
             ∧ TestAttempt.started_at row' = TestAttempt.started_at row)
  ∧ tests st' = tests st
  ∧ questions st' = questions st
  ∧ student_answers st' = student_answers st.
Proof.
  intros Hrow st'. subst st'. unfold submit_test, update_attempt.
  cbn [snd test_attempts tests questions student_answers].
  rewrite lookup_fmap, Hrow. cbn. split; [|split; [|auto]].
  - intros Hne. rewrite finalize_row_other by exact Hne. reflexivity.
  - eexists. split; [reflexivity|]. unfold finalize_row.
    destruct (String.eqb (TestAttempt.id row) attemptId); auto.
Qed.

Lemma submit_test_frame_witness :
  test_attempts (snd (submit_test running_store "a2" (11 * hour) true)) !! ("s1", "t1")
  = Some (TestAttempt.mk "a1" (11 * hour) None 0 false).
Proof.
  destruct (submit_test_frame running_store "a2" (11 * hour) ("s1", "t1")
              (TestAttempt.mk "a1" (11 * hour) None 0 false)) as (Hother & _);
    [vm_compute; reflexivity|].
  apply Hother. intros [=].
Defined.

(** X11.  The life of an attempt: once [start-test] has created or resumed
    an attempt and [submit-test] has been accepted for the id it answered
    with, a further [start-test] of the same student for the same test is
    refused as already completed, and writes nothing. *)
Lemma start_submit_start (st : Store) (studentId testId : string) (test : Test.t)
    (now stamp : Z) (newId : string) (write_ok : bool)
    (attemptId : string) (startedAt : Z) (st1 : Store)
    (submitted now' stamp' : Z) (newId' : string) (write_ok' : bool) :
  start_test st studentId testId now stamp newId write_ok
  = (Started attemptId startedAt, st1) →
  select_active_test st testId = Some test →
  outside_window test now' = false →
  let st2 := snd (submit_test st1 attemptId submitted true) in
  start_test st2 studentId testId now' stamp' newId' write_ok'
  = (Error 400 "You have already completed this test", st2).
Proof.
  intros Hstart Hsel Hwin st2.
  destruct (start_test_started _ _ _ _ _ _ _ _ _ _ Hstart)
    as (Htests & a & Hrow & Hid & _ & _).
  pose proof (update_attempt_lookup st1 attemptId submitted
                (score (score_answers (select_answers st1 attemptId)))
                _ _ Hrow Hid) as Hdone.
  change (update_attempt st1 attemptId submitted
            (score (score_answers (select_answers st1 attemptId)))) with st2 in Hdone.
  unfold start_test.
  assert (Hsel2 : select_active_test st2 testId = Some test).
  { unfold select_active_test in *. subst st2. cbn [snd submit_test update_attempt tests].
    rewrite Htests. exact Hsel. }
  rewrite Hsel2, Hwin, Hdone. reflexivity.
Qed.

Lemma start_submit_start_witness :
  start_test
    (snd (submit_test
            (snd (start_test sample_store "s1" "t1" (11 * hour) (11 * hour + 1) "a1" true))
            "a1" (11 * hour + 30) true))
    "s1" "t1" (11 * hour + 40) (11 * hour + 41) "a2" true
  = (Error 400 "You have already completed this test",
     snd (submit_test
            (snd (start_test sample_store "s1" "t1" (11 * hour) (11 * hour + 1) "a1" true))
            "a1" (11 * hour + 30) true)).
Proof.
  apply (start_submit_start sample_store "s1" "t1" sample_test
           (11 * hour) (11 * hour + 1) "a1" true "a1" (11 * hour + 1)
           (snd (start_test sample_store "s1" "t1" (11 * hour) (11 * hour + 1) "a1" true)));
    vm_compute; reflexivity.
Defined.

(** ** [manage-test] *)

Lemma manage_test_missing st testId updates :
  tests st !! testId = None →
  snd (manage_test st testId updates true) = st.
Proof.
  intros Hnone. unfold manage_test. cbn [snd].
  destruct st as [ts qs atts ans]. cbn in *. f_equal.
  apply map_eq. intros k. rewrite lookup_alter.
  case_decide; [subst; rewrite Hnone; reflexivity|reflexivity].
Qed.

(** X12.  [manage-test] for an id that no test carries reports success and
    changes nothing. *)
Lemma manage_test_unknown (st : Store) (testId : string) (updates : TestUpdates) :
  tests st !! testId = None →
  manage_test st testId updates true = (Success, st).
Proof.
  intros Hnone. rewrite <- (manage_test_missing st testId updates Hnone) at 2.
  reflexivity.
Qed.

Lemma manage_test_unknown_witness :
  manage_test sample_store "t404" (mkUpdates None None None None None (Some false)) true
  = (Success, sample_store).
Proof. apply manage_test_unknown. vm_compute. reflexivity. Defined.

Lemma manage_test_lookup st testId updates test :
  tests st !! testId = Some test →
  tests (snd (manage_test st testId updates true)) !! testId
  = Some (apply_updates updates test).
Proof.
  intros Htest. cbn [manage_test snd tests].
  rewrite lookup_alter, decide_True by reflexivity. rewrite Htest. reflexivity.
Qed.

Lemma manage_test_lookup_ne st testId updates other :
  other ≠ testId →
  tests (snd (manage_test st testId updates true)) !! other = tests st !! other.
Proof.
  intros Hne. cbn [manage_test snd tests].
  rewrite lookup_alter, decide_False by congruence. reflexivity.
Qed.

(** X13.  After an accepted [manage-test] with [is_active: false], every
    [start-test] for that test is refused as not found or not active,
    whoever asks and whenever, while [start-test] for any other test
    answers as it did before. *)
Lemma manage_test_deactivates (st : Store) (testId : string) (updates : TestUpdates)
    (studentId : string) (now stamp : Z) (newId : string) (write_ok : bool) :
  u_is_active updates = Some false →
  let st' := snd (manage_test st testId updates true) in
  start_test st' studentId testId now stamp newId write_ok
  = (Error 400 "Test not found or not active", st')
  ∧ ∀ other, other ≠ testId →
      fst (start_test st' studentId other now stamp newId write_ok)
      = fst (start_test st studentId other now stamp newId write_ok).
Proof.
  intros Hoff st'. split.
  - apply start_test_denied_inactive. unfold select_active_test.
    destruct (tests st !! testId) as [test|] eqn:Htest.
    + subst st'. rewrite (manage_test_lookup _ _ _ _ Htest).
      unfold apply_updates. cbn [Test.is_active]. rewrite Hoff. reflexivity.
    + subst st'. rewrite manage_test_missing by exact Htest.
      rewrite Htest. reflexivity.
  - intros other Hne. unfold start_test, select_active_test. subst st'.
    rewrite (manage_test_lookup_ne _ _ _ _ Hne).
    cbn [manage_test snd test_attempts].
    destruct (tests st !! other) as [test|]; [|reflexivity].
    destruct (Test.is_active test); [|reflexivity].
    destruct (outside_window test now); [reflexivity|].
    destruct (test_attempts st !! (studentId, other)) as [a|].
    + destruct (TestAttempt.is_completed a); reflexivity.
    + destruct write_ok; reflexivity.
Qed.

Lemma manage_test_deactivates_witness :
  fst (start_test
         (snd (manage_test running_store "t1"
                 (mkUpdates None None None None None (Some false)) true))
         "s1" "t1" (11 * hour) (11 * hour) "a2" true)
  = Error 400 "Test not found or not active".
Proof.
  destruct (manage_test_deactivates running_store "t1"
              (mkUpdates None None None None None (Some false))
              "s1" (11 * hour) (11 * hour) "a2" true) as (Hoff & _); [reflexivity|].
  rewrite Hoff. reflexivity.
Defined.

(** X14.  After an accepted [manage-test] that activates a stored test and
    sets its window, [start-test] is past the availability checks exactly
    when the clock is inside the new window, ends included. *)
Lemma manage_test_reschedules (st : Store) (testId : string) (test : Test.t)
    (updates : TestUpdates) (start_time end_time : Z)
    (studentId : string) (now stamp : Z) (newId : string) (write_ok : bool) :
  tests st !! testId = Some test →
  u_is_active updates = Some true →
  u_start_time updates = Some start_time →
  u_end_time updates = Some end_time →
  let st' := snd (manage_test st testId updates true) in
  ¬ TestUnavailable (fst (start_test st' studentId testId now stamp newId write_ok))
  ↔ (start_time ≤ now ≤ end_time)%Z.
Proof.
  intros Htest Hon Hs He st'.
  assert (Hsel : select_active_test st' testId = Some (apply_updates updates test)).
  { apply select_active_test_Some. subst st'.
    rewrite (manage_test_lookup _ _ _ _ Htest). split; [reflexivity|].
    unfold apply_updates. cbn [Test.is_active]. rewrite Hon. reflexivity. }
  assert (Hwin : outside_window (apply_updates updates test) now = false
                 ↔ (start_time ≤ now ≤ end_time)%Z).
  { rewrite outside_window_false. unfold apply_updates.
    cbn [Test.start_time Test.end_time]. rewrite Hs, He. reflexivity. }
  split.
  - intros Hav. apply Hwin.
    destruct (outside_window (apply_updates updates test) now) eqn:Hout; [|reflexivity].
    exfalso. apply Hav.
    rewrite (start_test_denied_window _ _ _ _ _ _ _ _ Hsel Hout). right. reflexivity.
  - intros Hin. apply start_test_inside_window with (apply_updates updates test).
    + exact Hsel.
    + apply Hwin. exact Hin.
Qed.

Lemma manage_test_reschedules_witness :
  ¬ TestUnavailable
      (fst (start_test
              (snd (manage_test sample_store "t1"
                      (mkUpdates None (Some (20 * hour)%Z) (Some (22 * hour)%Z)
                                 None None (Some true)) true))
              "s1" "t1" (21 * hour) (21 * hour) "a1" true)).
Proof.
  apply (manage_test_reschedules sample_store "t1" sample_test
           (mkUpdates None (Some (20 * hour)%Z) (Some (22 * hour)%Z) None None (Some true))
           (20 * hour) (22 * hour) "s1" (21 * hour) (21 * hour) "a1" true);
    try reflexivity.
  unfold hour. lia.
Defined.

(** X15.  Neither [submit-answer] nor [submit-test] looks at the tests:
    after any [manage-test] (a deactivation, a window in the past) they
    answer as before and write the same attempts and answers. *)
Lemma submissions_ignore_tests (st : Store) (testId : string) (updates : TestUpdates)
    (manage_ok : bool) :
  let st' := snd (manage_test st testId updates manage_ok) in
  (∀ attemptId questionId selectedAnswer write_ok,
     fst (submit_answer st' attemptId questionId selectedAnswer write_ok)
     = fst (submit_answer st attemptId questionId selectedAnswer write_ok)
     ∧ student_answers (snd (submit_answer st' attemptId questionId selectedAnswer write_ok))
       = student_answers (snd (submit_answer st attemptId questionId selectedAnswer write_ok)))
  ∧ (∀ attemptId now write_ok,
       fst (submit_test st' attemptId now write_ok)
       = fst (submit_test st attemptId now write_ok)
       ∧ test_attempts (snd (submit_test st' attemptId now write_ok))
         = test_attempts (snd (submit_test st attemptId now write_ok))).
Proof.
  intros st'. subst st'. unfold manage_test.
  destruct manage_ok; cbn [snd]; split; intros; split; try reflexivity;
    unfold submit_answer, submit_test, answer_accepted, attempt_exists;
    cbn [tests questions test_attempts student_answers];
    try (destruct write_ok; reflexivity);
    match goal with |- context [if ?c then _ else _] => destruct c end; reflexivity.
Qed.

(** X16.  An accepted [manage-test] writes only the test it names: the
    other tests, the questions, the attempts and the answers stay as they
    were, and sending the same updates again changes nothing further. *)
Lemma manage_test_frame (st : Store) (testId : string) (updates : TestUpdates) :
  let st' := snd (manage_test st testId updates true) in
  (∀ other, other ≠ testId → tests st' !! other = tests st !! other)
  ∧ questions st' = questions st
  ∧ test_attempts st' = test_attempts st
  ∧ student_answers st' = student_answers st
  ∧ snd (manage_test st' testId updates true) = st'.
Proof.
  intros st'. subst st'. split; [intros other Hne; apply manage_test_lookup_ne, Hne|].
  cbn [manage_test snd tests questions test_attempts student_answers].
  repeat split. f_equal. rewrite alter_alter_eq. apply alter_ext.
  intros test _. unfold apply_updates, compose. cbn.
  destruct updates as [[?|] [?|] [?|] [?|] [?|] [?|]]; reflexivity.
Qed.

(** ** [get-results] *)

#[global] Instance newer_first_total : Total newer_first.
Proof.
  intros a b. unfold newer_first.
  destruct (TestAttempt.submitted_at (row_attempt a)) as [x|],
           (TestAttempt.submitted_at (row_attempt b)) as [y|]; auto.
  lia.
Qed.

#[global] Instance newer_first_trans : Transitive newer_first.
Proof.
  intros a b c. unfold newer_first.
  destruct (TestAttempt.submitted_at (row_attempt a)) as [x|],
           (TestAttempt.submitted_at (row_attempt b)) as [y|],
           (TestAttempt.submitted_at (row_attempt c)) as [z|]; auto; try lia.
Qed.

Lemma get_results_elem students st rows row :
  get_results students st true = Results rows →
  row ∈ rows
  ↔ ∃ key a, test_attempts st !! key = Some a
             ∧ TestAttempt.is_completed a = true
             ∧ row = result_row students st (key, a).
Proof.
  unfold get_results. intros [= <-].
  rewrite merge_sort_Permutation, list_elem_of_fmap. split.
  - intros ([key a] & -> & Hin). apply list_elem_of_filter in Hin as [Hdone Hin].
    apply elem_of_map_to_list in Hin. exists key, a. auto.
  - intros (key & a & Hrow & Hdone & ->). exists (key, a). split; [reflexivity|].
    apply list_elem_of_filter. split; [exact Hdone|].
    apply elem_of_map_to_list. exact Hrow.
Qed.

(** X17.  The rows [get-results] answers with are exactly the completed
    attempts of the store, one row for each, every row carrying the
    attempt as stored; attempts in progress never appear; and the rows come
    latest submission first. *)
Lemma get_results_completed_sorted (students : gmap string Student.t) (st : Store)
    (rows : list ResultRow) :
  get_results students st true = Results rows →
  (∀ row, row ∈ rows →
     TestAttempt.is_completed (row_attempt row) = true
     ∧ test_attempts st !! (row_student_id row, row_test_id row)
       = Some (row_attempt row))
  ∧ (∀ key a, test_attempts st !! key = Some a →
       TestAttempt.is_completed a = true →
       mkRow (fst key) (snd key) a (students !! fst key)
             (Test.title <$> tests st !! snd key) ∈ rows)
  ∧ length rows
    = length (filter (λ kv, TestAttempt.is_completed (snd kv) = true)
                     (map_to_list (test_attempts st)))
  ∧ StronglySorted newer_first rows.
Proof.
  intros Hres. split; [|split; [|split]].
  - intros row Hin. apply (get_results_elem _ _ _ _ Hres) in Hin
      as ([s t] & a & Hrow & Hdone & ->).
    cbn. auto.
  - intros key a Hrow Hdone. apply (get_results_elem _ _ _ _ Hres).
    exists key, a. auto.
  - unfold get_results in Hres. injection Hres as <-.
    rewrite merge_sort_Permutation, length_fmap. reflexivity.
  - unfold get_results in Hres. injection Hres as <-.
    apply StronglySorted_merge_sort; apply _.
Qed.

Lemma get_results_completed_sorted_witness :
  ∃ rows, get_results ∅ graded_store true = Results rows
          ∧ length rows = 1
          ∧ StronglySorted newer_first rows.
Proof.
  eexists. split; [reflexivity|].
  destruct (get_results_completed_sorted ∅ graded_store _ eq_refl)
    as (_ & _ & Hlen & Hsorted).
  split; [|exact Hsorted]. rewrite Hlen. vm_compute. reflexivity.
Defined.

(** X18.  An attempt whose [submit-test] was accepted is among the results
    from then on, with the score that [submit-test] answered and the instant
    of the submission. *)
Lemma submitted_attempt_in_results (students : gmap string Student.t) (st : Store)
    (key : string * string) (a : TestAttempt.t) (now : Z) (r : ScoreResult)
    (st' : Store) :
  test_attempts st !! key = Some a →
  submit_test st (TestAttempt.id a) now true = (Scored r, st') →
  ∃ rows row,
    get_results students st' true = Results rows
    ∧ row ∈ rows
    ∧ row_student_id row = fst key
    ∧ row_test_id row = snd key
    ∧ row_attempt row
      = TestAttempt.mk (TestAttempt.id a) (TestAttempt.started_at a)
                       (Some now) (score r) true.
Proof.
  intros Hrow Hsub. unfold submit_test in Hsub. injection Hsub as <- <-.
  set (r := score_answers (select_answers st (TestAttempt.id a))).
  set (st' := update_attempt st (TestAttempt.id a) now (score r)).
  set (done := TestAttempt.mk (TestAttempt.id a) (TestAttempt.started_at a)
                              (Some now) (score r) true).
  eexists. exists (result_row students st' (key, done)).
  split; [reflexivity|]. split; [|cbn; auto].
  apply (get_results_elem students st' _ _ eq_refl).
  exists key, done. split; [|split; reflexivity].
  apply update_attempt_lookup; [exact Hrow|reflexivity].
Qed.

Lemma submitted_attempt_in_results_witness :
  ∃ rows row,
    get_results ∅ graded_store true = Results rows
    ∧ row ∈ rows
    ∧ row_attempt row
      = TestAttempt.mk "a1" (11 * hour) (Some (11 * hour + 7)%Z) (0 + 1 - (1 # 4)) true.
Proof.
  destruct (submitted_attempt_in_results ∅ running_store ("s1", "t1")
              (TestAttempt.mk "a1" (11 * hour) None 0 false) (11 * hour + 7)
              (score_answers (select_answers running_store "a1")) graded_store)
    as (rows & row & Hres & Hin & _ & _ & Hrow); try (vm_compute; reflexivity).
  exists rows, row. split; [exact Hres|]. split; [exact Hin|]. exact Hrow.
Defined.

(** ** The student's page *)

Lemma remaining_time_zero now started_at :
  (3600000 ≤ now - started_at)%Z → remaining_time now started_at = 0%Z.
Proof. intros H. unfold remaining_time. cbv zeta. Z.div_mod_to_equations. lia. Qed.

(** X19.  The time a resumed attempt is given is never negative, is at most
    an hour when the clock is not before [started_at], shrinks as the clock
    advances, and is zero exactly from one hour after [started_at] on. *)
Lemma remaining_time_bounds (now started_at : Z) :
  (0 ≤ remaining_time now started_at)%Z
  ∧ ((started_at ≤ now)%Z → (remaining_time now started_at ≤ 3600)%Z)
  ∧ (remaining_time now started_at = 0%Z ↔ (3600000 ≤ now - started_at)%Z)
  ∧ (∀ later, (now ≤ later)%Z →
       (remaining_time later started_at ≤ remaining_time now started_at)%Z).
Proof.
  unfold remaining_time. cbv zeta. repeat split.
  - lia.
  - intros H. Z.div_mod_to_equations. lia.
  - intros H. Z.div_mod_to_equations. lia.
  - intros H. Z.div_mod_to_equations. lia.
  - intros later H. Z.div_mod_to_equations. lia.
Qed.

Lemma after_seconds_S n c : after_seconds (S n) c = one_second (after_seconds n c).
Proof. reflexivity. Qed.

Lemma countdown_running (T : Z) (calls : nat) (k : nat) :
  (Z.of_nat k < T)%Z →
  after_seconds k (mkCountdown T calls) = mkCountdown (T - Z.of_nat k) calls.
Proof.
  induction k as [|k IH]; intros Hk.
  - cbn. f_equal. lia.
  - rewrite after_seconds_S, IH by lia. unfold one_second, timer_tick.
    cbn [timeLeft submit_calls].
    destruct (Z.gtb_spec (T - Z.of_nat k) 0) as [_|]; [|lia].
    destruct (Z.leb_spec (T - Z.of_nat k) 1) as [|_]; [lia|].
    f_equal; lia.
Qed.

Lemma countdown_stopped (T : Z) (calls : nat) (n : nat) :
  (T ≤ 0)%Z → after_seconds n (mkCountdown T calls) = mkCountdown T calls.
Proof.
  intros HT. induction n as [|n IH]; [reflexivity|].
  rewrite after_seconds_S, IH. unfold one_second. cbn [timeLeft].
  destruct (Z.gtb_spec T 0); [lia|reflexivity].
Qed.

(** X20.  A countdown started with [T >= 1] seconds shows [T - k] after [k]
    seconds without calling [submitTest], calls it exactly once in second
    [T], when it reaches zero, and never again however long the page stays
    open. *)
Lemma countdown_submits_once (T : Z) :
  (1 ≤ T)%Z →
  (∀ k : nat, (Z.of_nat k < T)%Z →
     after_seconds k (mkCountdown T 0) = mkCountdown (T - Z.of_nat k) 0)
  ∧ ∀ extra : nat,
      after_seconds (Z.to_nat T + extra) (mkCountdown T 0) = mkCountdown 0 1.
Proof.
  intros HT. split; [intros k Hk; apply countdown_running, Hk|].
  assert (Hzero : after_seconds (Z.to_nat T) (mkCountdown T 0) = mkCountdown 0 1).
  { destruct (Z.to_nat T) as [|n] eqn:Hn; [lia|].
    rewrite after_seconds_S, countdown_running by lia.
    unfold one_second, timer_tick. cbn [timeLeft submit_calls].
    destruct (Z.gtb_spec (T - Z.of_nat n) 0) as [_|]; [|lia].
    destruct (Z.leb_spec (T - Z.of_nat n) 1) as [_|]; [reflexivity|lia]. }
  intros extra. rewrite Nat.add_comm. unfold after_seconds in *.
  rewrite Nat.iter_add, Hzero. apply countdown_stopped. lia.
Qed.

Lemma countdown_submits_once_witness :
  after_seconds 3600 (mkCountdown 3600 0) = mkCountdown 0 1
  ∧ after_seconds 3599 (mkCountdown 3600 0) = mkCountdown 1 0.
Proof.
  destruct (countdown_submits_once 3600) as (Hrun & Hend); [lia|].
  split; [exact (Hend 0%nat)|]. apply (Hrun 3599%nat). lia.
Defined.

(** X21.  An attempt resumed an hour or more after it started gets zero
    seconds, and with zero seconds the countdown never calls [submitTest]. *)
Lemma expired_resume_never_submits (now started_at : Z) (n : nat) :
  (3600000 ≤ now - started_at)%Z →
  after_seconds n (mkCountdown (remaining_time now started_at) 0)
  = mkCountdown 0 0.
Proof.
  intros Hlate. rewrite (remaining_time_zero _ _ Hlate).
  apply countdown_stopped. lia.
Qed.

Lemma expired_resume_never_submits_witness :
  after_seconds 600 (mkCountdown (remaining_time (13 * hour) (11 * hour)) 0)
  = mkCountdown 0 0.
Proof. apply expired_resume_never_submits. unfold hour. lia. Defined.

(** X22.  The summary the page rebuilds for a completed attempt agrees with
    what [submit-test] answered: the stored score and the same attempted,
    correct, incorrect and unattempted counts, as long as no answer was
    recorded since. *)
Lemma completed_summary_agrees (st : Store) (key : string * string)
    (a : TestAttempt.t) (now : Z) :
  test_attempts st !! key = Some a →
  let r := score_answers (select_answers st (TestAttempt.id a)) in
  let st' := snd (submit_test st (TestAttempt.id a) now true) in
  ∃ existingAttempt,
    test_attempts st' !! key = Some existingAttempt
    ∧ TestAttempt.is_completed existingAttempt = true
    ∧ completed_summary st' existingAttempt
      = mkTestResult (score r) 40 (attempted r) (correct r) (incorrect r) (unattempted r).
Proof.
  intros Hrow r st'. eexists. split; [|split].
  - subst st'. unfold submit_test. cbn [snd].
    apply update_attempt_lookup; [exact Hrow|reflexivity].
  - reflexivity.
  - unfold completed_summary. cbn [TestAttempt.id TestAttempt.score].
    subst st'. unfold submit_test. cbn [snd]. rewrite select_answers_update.
    destruct (tally_counts (select_answers st (TestAttempt.id a))) as (Hc & Hi & _).
    pose proof (counts_length (select_answers st (TestAttempt.id a))) as Hlen.
    subst r. unfold score_answers. cbn [score attempted correct incorrect unattempted].
    rewrite Hc, Hi. unfold count_correct in *. f_equal. lia.
Qed.

Lemma completed_summary_agrees_witness :
  ∃ existingAttempt,
    test_attempts graded_store !! ("s1", "t1") = Some existingAttempt
    ∧ completed_summary graded_store existingAttempt
      = mkTestResult (0 + 1 - (1 # 4)) 40 2 1 1 38.
Proof.
  destruct (completed_summary_agrees running_store ("s1", "t1")
              (TestAttempt.mk "a1" (11 * hour) None 0 false) (11 * hour + 7))
    as (done & Hrow & _ & Hsum); [vm_compute; reflexivity|].
  exists done. split; [exact Hrow|].
  etransitivity; [exact Hsum|]. vm_compute. reflexivity.
Defined.

(** ** [formatTime] *)

Lemma pretty_below_100 (x : N) :
  (x < 100)%N →
  padStart 2 "0" (pretty x)
  = String (pretty_N_char (x `div` 10)) (String (pretty_N_char (x `mod` 10)) "").
Proof.
  intros Hx. unfold pretty, pretty_N.
  destruct (decide (x = 0)%N) as [->|Hne]; [reflexivity|].
  rewrite pretty_N_go_step by lia.
  destruct (decide (x < 10)%N) as [Hsmall|Hbig].
  - rewrite (N.div_small x 10) by exact Hsmall. rewrite pretty_N_go_0. reflexivity.
  - rewrite pretty_N_go_step by (apply N.div_str_pos; lia).
    assert (Hdd : ((x `div` 10) `div` 10 = 0)%N).
    { apply N.div_small. apply N.Div0.div_lt_upper_bound. lia. }
    assert (Hd : ((x `div` 10) `mod` 10 = x `div` 10)%N).
    { apply N.mod_small. apply N.Div0.div_lt_upper_bound. lia. }
    rewrite Hdd, Hd, pretty_N_go_0. reflexivity.
Qed.

Lemma pretty_Z_of_N (x : Z) : (0 ≤ x)%Z → pretty x = pretty (Z.to_N x).
Proof. destruct x as [|p|p]; [reflexivity|reflexivity|lia]. Qed.

(** X23.  For a time below one hundred minutes [formatTime] is five
    characters: the two decimal digits of the minutes, a colon and the two
    decimal digits of the seconds within the minute; different times below
    one hundred minutes are shown differently. *)
Lemma formatTime_mm_ss (seconds : Z) :
  (0 ≤ seconds < 6000)%Z →
  let digit (d : Z) := pretty_N_char (Z.to_N d) in
  formatTime seconds
  = String (digit (seconds / 600)%Z)
      (String (digit ((seconds / 60) `mod` 10)%Z)
         (String ":"
            (String (digit ((seconds `mod` 60) / 10)%Z)
               (String (digit (seconds `mod` 10)%Z) ""))))
  ∧ ∀ other, (0 ≤ other < 6000)%Z → formatTime other = formatTime seconds →
             other = seconds.
Proof.
  assert (Hshape : ∀ s, (0 ≤ s < 6000)%Z →
    formatTime s
    = String (pretty_N_char (Z.to_N (s / 600)))
        (String (pretty_N_char (Z.to_N ((s / 60) `mod` 10)))
           (String ":"
              (String (pretty_N_char (Z.to_N ((s `mod` 60) / 10)))
                 (String (pretty_N_char (Z.to_N (s `mod` 10))) ""))))).
  { intros s Hs. unfold formatTime. cbv zeta.
    rewrite Z.rem_mod_nonneg by lia.
    rewrite (pretty_Z_of_N (s / 60)) by (Z.div_mod_to_equations; lia).
    rewrite (pretty_Z_of_N (s `mod` 60)) by (Z.div_mod_to_equations; lia).
    rewrite !pretty_below_100 by (Z.div_mod_to_equations; lia).
    cbn [String.append].
    assert (H1 : (Z.to_N (s / 60) `div` 10)%N = Z.to_N (s / 600)).
    { change 10%N with (Z.to_N 10).
      rewrite <- Z2N.inj_div by (Z.div_mod_to_equations; lia).
      f_equal. Z.div_mod_to_equations. lia. }
    assert (H2 : (Z.to_N (s / 60) `mod` 10)%N = Z.to_N ((s / 60) `mod` 10)).
    { change 10%N with (Z.to_N 10).
      rewrite <- Z2N.inj_mod by (Z.div_mod_to_equations; lia). reflexivity. }
    assert (H3 : (Z.to_N (s `mod` 60) `div` 10)%N = Z.to_N ((s `mod` 60) / 10)).
    { change 10%N with (Z.to_N 10).
      rewrite <- Z2N.inj_div by (Z.div_mod_to_equations; lia). reflexivity. }
    assert (H4 : (Z.to_N (s `mod` 60) `mod` 10)%N = Z.to_N (s `mod` 10)).
    { change 10%N with (Z.to_N 10).
      rewrite <- Z2N.inj_mod by (Z.div_mod_to_equations; lia).
      f_equal. Z.div_mod_to_equations. lia. }
    rewrite H1, H2, H3, H4.
    reflexivity. }
  intros Hs digit. split; [apply Hshape, Hs|].
  intros other Ho Heq. rewrite (Hshape other Ho), (Hshape seconds Hs) in Heq.
  injection Heq as H1 H2 H3 H4.
  apply pretty_N_char_inj in H1; [|Z.div_mod_to_equations; lia..].
  apply pretty_N_char_inj in H2; [|Z.div_mod_to_equations; lia..].
  apply pretty_N_char_inj in H3; [|Z.div_mod_to_equations; lia..].
  apply pretty_N_char_inj in H4; [|Z.div_mod_to_equations; lia..].
  Z.div_mod_to_equations. lia.
Qed.

Lemma formatTime_mm_ss_witness :
  formatTime 3599 = "59:59" ∧ formatTime 65 = "01:05".
Proof.
  destruct (formatTime_mm_ss 3599) as [H1 _]; [lia|].
  destruct (formatTime_mm_ss 65) as [H2 _]; [lia|].
  split; [exact H1|exact H2].
Defined.

(** ** Grades and passes on the results dashboard *)

Lemma percentage_at_least (k : Z) (score : Q) :
  Qle_bool (inject_Z k) (percentage score) = true
  ↔ (inject_Z k * (2 # 5) <= score)%Q.
Proof.
  rewrite Qle_bool_iff. unfold percentage, Qdiv.
  destruct score as [n d].
  unfold Qle, Qmult, Qinv, inject_Z. cbn [Qnum Qden]. split; intros H; lia.
Qed.

(** X24.  With the score as the exact number of marks, the exported grade
    is A from 32 marks, B from 28, C from 24, D from 20 and F below 20; the
    attempts the statistics count as passed are exactly those whose grade is
    not F. *)
Lemma grade_thresholds (score : Q) :
  (grade score = "A" ↔ (32 <= score)%Q)
  ∧ (grade score = "B" ↔ (28 <= score)%Q ∧ (score < 32)%Q)
  ∧ (grade score = "C" ↔ (24 <= score)%Q ∧ (score < 28)%Q)
  ∧ (grade score = "D" ↔ (20 <= score)%Q ∧ (score < 24)%Q)
  ∧ (grade score = "F" ↔ (score < 20)%Q)
  ∧ (passes score = true ↔ grade score ≠ "F").
Proof.
  assert (H : ∀ k m : Z, (k * 2 = m * 5)%Z →
            Qle_bool (inject_Z k) (percentage score) = true ↔ (inject_Z m <= score)%Q).
  { intros k m Hkm. rewrite percentage_at_least.
    assert (E : (inject_Z k * (2 # 5) == inject_Z m)%Q)
      by (unfold Qeq, Qmult, inject_Z; cbn [Qnum Qden]; lia).
    rewrite E. reflexivity. }
  pose proof (H 80%Z 32%Z eq_refl) as H80. pose proof (H 70%Z 28%Z eq_refl) as H70.
  pose proof (H 60%Z 24%Z eq_refl) as H60. pose proof (H 50%Z 20%Z eq_refl) as H50.
  clear H.
  change (inject_Z 80) with 80%Q in H80. change (inject_Z 70) with 70%Q in H70.
  change (inject_Z 60) with 60%Q in H60. change (inject_Z 50) with 50%Q in H50.
  change (inject_Z 32) with 32%Q in H80. change (inject_Z 28) with 28%Q in H70.
  change (inject_Z 24) with 24%Q in H60. change (inject_Z 20) with 20%Q in H50.
  assert (N : ∀ k, (score < k ↔ ¬ k <= score)%Q)
    by (intros k; split; [apply Qlt_not_le|apply Qnot_le_lt]).
  assert (M1 : (32 <= score → 28 <= score)%Q)
    by (intros L; (eapply Qle_trans; [|exact L]); discriminate).
  assert (M2 : (28 <= score → 24 <= score)%Q)
    by (intros L; (eapply Qle_trans; [|exact L]); discriminate).
  assert (M3 : (24 <= score → 20 <= score)%Q)
    by (intros L; (eapply Qle_trans; [|exact L]); discriminate).
  rewrite !N. rewrite <- H80, <- H70, <- H60, <- H50 in *.
  unfold grade, passes.
  destruct (Qle_bool 80 (percentage score)), (Qle_bool 70 (percentage score)),
           (Qle_bool 60 (percentage score)), (Qle_bool 50 (percentage score));
    intuition (try discriminate; try congruence).
Qed.

(** ** The batches of the import script *)

Local Open Scope nat_scope.

Lemma import_loop_spec {A} (rows : list A) (accepts : nat → bool) (fuel : nat) :
  ∀ i, length rows ≤ i + batchSize * fuel →
  ∀ inserted finished, import_loop fuel i rows accepts = (inserted, finished) →
  concat inserted = take (batchSize * length inserted) (drop i rows)
  ∧ Forall (λ batch, 1 ≤ length batch ≤ batchSize) inserted
  ∧ (∀ j, j < length inserted → accepts (i / batchSize + j) = true)
  ∧ (finished = true → concat inserted = drop i rows)
  ∧ (finished = false →
     accepts (i / batchSize + length inserted) = false
     ∧ i + batchSize * length inserted < length rows)
  ∧ (inserted = [] ∨ i + batchSize * length inserted < length rows + batchSize).
Proof.
  unfold batchSize.
  induction fuel as [|fuel IH]; intros i Hfuel inserted finished Hrun;
    cbn [import_loop] in Hrun; unfold batchSize in Hrun.
  - destruct (Nat.ltb_spec i (length rows)) as [Hlt|Hge]; [lia|].
    cbn [negb] in Hrun. apply pair_equal_spec in Hrun as [<- <-]. cbn. rewrite drop_ge by lia.
    repeat split; auto; try discriminate. intros j Hj. lia.
  - destruct (Nat.ltb_spec i (length rows)) as [Hlt|Hge].
    + destruct (accepts (i / 10)) eqn:Hacc.
      * destruct (import_loop fuel (i + 10) rows accepts)
          as [rest fin] eqn:Hrest.
        apply pair_equal_spec in Hrun as [<- <-].
        destruct (IH (i + 10) ltac:(lia) rest fin Hrest)
          as (Hcat & Hall & Hok & Hfin & Hstop & Hlast).
        assert (Hdiv : (i + 10) / 10 = S (i / 10)).
        { change (i + 10) with (i + 1 * 10). rewrite Nat.div_add by lia. lia. }
        rewrite Hdiv in *.
        cbn [concat length]. rewrite Hcat, <- drop_drop.
        replace (10 * S (length rest)) with (10 + 10 * length rest) by lia.
        rewrite take_take_drop. split; [reflexivity|].
        split; [|split; [|split; [|split]]].
        -- constructor; [|exact Hall]. unfold batchSize.
           rewrite length_take, length_drop. lia.
        -- intros [|j] Hj; [rewrite Nat.add_0_r; exact Hacc|].
           replace (i / 10 + S j) with (S (i / 10) + j) by lia. apply Hok. lia.
        -- intros Hf. rewrite <- take_take_drop, drop_drop, <- Hcat, (Hfin Hf).
           rewrite <- drop_drop. apply take_drop.
        -- intros Hf. destruct (Hstop Hf) as [Hrej Hleft]. split; [|lia].
           replace (i / 10 + S (length rest)) with (S (i / 10) + length rest) by lia.
           exact Hrej.
        -- right. destruct Hlast as [->|Hlast]; cbn [length]; lia.
      * apply pair_equal_spec in Hrun as [<- <-]. cbn. rewrite Nat.add_0_r.
        repeat split; auto; try discriminate; try lia.
    + apply pair_equal_spec in Hrun as [<- <-]. cbn. rewrite drop_ge by lia.
      repeat split; auto; try discriminate. intros j Hj. lia.
Qed.

(** X25.  The import inserts the questions ten at a time, in order.  What
    has been inserted when the script ends is always the first
    [10 * batches] rows, every insert carrying between one and ten rows.  If
    the loop runs to its end all rows have been inserted; if it stops early,
    the batch it stopped at was rejected, all earlier ones were accepted, and
    rows are left over. *)
Lemma import_batches_prefix {A} (rows : list A) (accepts : nat → bool)
    (inserted : list (list A)) (finished : bool) :
  import_batches rows accepts = (inserted, finished) →
  concat inserted = take (10 * length inserted) rows
  ∧ Forall (λ batch, 1 ≤ length batch ≤ 10) inserted
  ∧ (∀ j, j < length inserted → accepts j = true)
  ∧ (finished = true → concat inserted = rows)
  ∧ (finished = false →
     accepts (length inserted) = false ∧ 10 * length inserted < length rows).
Proof.
  intros Hrun. unfold import_batches in Hrun.
  destruct (import_loop_spec rows accepts (length rows) 0
              ltac:(unfold batchSize; lia) inserted finished Hrun)
    as (Hcat & Hall & Hok & Hfin & Hstop & _).
  unfold batchSize in *. cbn [drop Nat.div] in *.
  change (0 / 10) with 0 in *. cbn [Nat.add] in *. auto.
Qed.

Lemma import_batches_prefix_witness :
  import_batches (seq 1 25) (λ k, negb (k =? 2)%nat)
  = ([seq 1 10; seq 11 10], false)
  ∧ concat [seq 1 10; seq 11 10] = take 20 (seq 1 25).
Proof.
  assert (Hrun : import_batches (seq 1 25) (λ k, negb (k =? 2)%nat)
                 = ([seq 1 10; seq 11 10], false)) by (vm_compute; reflexivity).
  split; [exact Hrun|].
  destruct (import_batches_prefix _ _ _ _ Hrun) as (Hcat & _). exact Hcat.
Defined.

(** X26.  When the store accepts every batch, the import runs to its end,
    the batches put together are the rows in their order, and their number
    is the [Math.ceil(rows / 10)] that the progress line prints. *)
Lemma import_batches_all (A : Type) (rows : list A) (accepts : nat → bool) :
  (∀ k, accepts k = true) →
  ∃ inserted,
    import_batches rows accepts = (inserted, true)
    ∧ concat inserted = rows
    ∧ length inserted = (length rows + 9) / 10.
Proof.
  intros Hacc. destruct (import_batches rows accepts) as [inserted finished] eqn:Hrun.
  unfold import_batches in Hrun.
  destruct (import_loop_spec rows accepts (length rows) 0
              ltac:(unfold batchSize; lia) inserted finished Hrun)
    as (Hcat & Hall & _ & Hfin & Hstop & Hlast).
  destruct finished.
  - exists inserted. split; [reflexivity|]. specialize (Hfin eq_refl).
    rewrite drop_0 in Hfin, Hcat. split; [exact Hfin|].
    unfold batchSize in *. rewrite Hfin in Hcat.
    apply (f_equal length) in Hcat. rewrite length_take in Hcat.
    destruct Hlast as [->|Hlast].
    + cbn [concat] in Hfin. rewrite <- Hfin. reflexivity.
    + apply Nat.div_unique with (length rows + 9 - 10 * length inserted); lia.
  - destruct (Hstop eq_refl) as [Hrej _]. rewrite Hacc in Hrej. discriminate Hrej.
Qed.

Lemma import_batches_all_witness :
  ∃ inserted,
    import_batches (seq 1 25) (λ _, true) = (inserted, true)
    ∧ concat inserted = seq 1 25
    ∧ length inserted = 3.
Proof. apply (import_batches_all nat (seq 1 25) (λ _, true)). reflexivity. Defined.
